(** * power.py: the power-generation query dashboard

    A shallow embedding of [power.py] and of the pandas / Streamlit
    operations it calls, followed by the properties of the loader, the
    query block, the export and the coverage report.

    Conventions of the embedding
    - A Python [str] is a Rocq [string] holding its UTF-8 bytes, so
      [.encode('utf-8')] only changes the container (string to bytes).
    - A finite [float64] is given as the rational it is equal to ([Qc];
      negative zero is not told from zero), the infinities and the
      missing value (pandas [NaN]) are cell constructors of their own.
    - What pandas, numpy and Python compute with rounding, or by rules of
      their own, is not rebuilt: the reading of numbers written as text,
      the sum of a column, a quotient, a cast out of the range of
      [int64] and the text of a CSV field are operations of a [Library]
      (or a parameter) that the properties hold for whatever they are.
    - A data frame is a header and a list of rows; a cell that a row does
      not have reads as [NaN], as [read_csv] fills short lines.
    - Exceptions are values of [Exception]; fallible expressions live in
      [Result], statements of the script in [Script].
    - The selections are parameters of the query block: the widgets that
      build them and the fixed texts of the page are left out.  The cache
      decorators do not change what the functions return and are left
      out too. *)

From stdpp Require Import base list numbers strings pretty sorting.
From Stdlib Require Import Strings.Byte Ascii QArith Qcanon.
Close Scope Qc_scope.
Close Scope Q_scope.

Local Open Scope string_scope.

(** ** Exceptions and the error monad *)

Inductive Exception :=
| FileNotFoundError
| PermissionError
| UnicodeDecodeError
| EmptyDataError
| ParserError
| KeyError (key : string)
| ValueError (missing : list string)
| InvalidLiteral (s : string)
| OverflowError
| IntCastingNaNError
| TypeError
| ZeroDivisionError.

Inductive Result (A : Type) :=
| Ok (a : A)
| Raise (e : Exception).
Arguments Ok {A} a.
Arguments Raise {A} e.

#[global] Instance Result_ret : MRet Result := λ A a, Ok a.
#[global] Instance Result_bind : MBind Result := λ A B f m,
  match m with
  | Ok a => f a
  | Raise e => Raise e
  end.

(** ** The pandas operations used by the script *)

Module Pandas.

(** One value of a column: missing, text, an integer, a finite [float64]
    (the rational it is equal to) or an infinity. *)
Inductive cell :=
| NaN
| Str (s : string)
| Int (z : Z)
| Float (q : Qc)
| Inf (negative : bool).

#[global] Instance cell_eq_dec : EqDecision cell.
Proof. solve_decision. Defined.
#[global] Instance cell_inhabited : Inhabited cell := populate NaN.

Abbreviation Series := (list cell).

Record DataFrame := mkDF {
  columns : list string;
  rows : list (list cell)
}.

#[global] Instance DataFrame_eq_dec : EqDecision DataFrame.
Proof. solve_decision. Defined.

(** A number as numpy holds one: the result of a conversion, of a sum or
    of a division. *)
Inductive numeric :=
| NumNaN
| NumInt (z : Z)
| NumFloat (q : Qc)
| NumInf (negative : bool).

Definition numeric_cell (n : numeric) : cell :=
  match n with
  | NumNaN => NaN
  | NumInt z => Int z
  | NumFloat q => Float q
  | NumInf negative => Inf negative
  end.

(** What the script takes from pandas, numpy and Python as it is.
    - [to_numeric_object s i]: the value that
      [pd.to_numeric(s, errors="coerce")] has at position [i] for a column
      [s] that holds text (which spellings are numbers, how a literal is
      rounded, which dtype the column gets).
    - [int_of_str]: Python's [int] on a [str], when it is defined.
    - [cast_overflow]: what the cast to [int64] leaves for a float outside
      the range of [int64].
    - [np_sum s]: the sum of a column without text, missing values
      skipped (with the rounding, the order and the wrap-around of numpy).
    - [np_truediv a b]: the quotient [a / b] of two such numbers. *)
Class Library := {
  to_numeric_object : Series → nat → numeric;
  int_of_str : string → option Z;
  cast_overflow : Qc → Z;
  np_sum : Series → numeric;
  np_truediv : numeric → numeric → numeric
}.

(** What [pd.read_csv("power_data.csv")] finds: a file that cannot be
    read or parsed, with the exception raised for it (no such file, no
    permission, bytes that are not UTF-8, no column at all, a malformed
    line), or a table (column names are unique: [read_csv] renames
    duplicates). *)
Inductive CsvFile :=
| Unreadable (e : Exception)
| Table (df : DataFrame).

Definition read_csv (file : CsvFile) : Result DataFrame :=
  match file with
  | Unreadable e => Raise e
  | Table df => Ok df
  end.

(** [index.get_loc(key)]: position of a label. *)
Fixpoint get_loc `{EqDecision A} (labels : list A) (key : A) : option nat :=
  match labels with
  | [] => None
  | c :: labels' =>
      if decide (c = key) then Some 0%nat else S <$> get_loc labels' key
  end.

(** [df[key]] *)
Definition getitem (df : DataFrame) (key : string) : Result Series :=
  match get_loc (columns df) key with
  | Some i => Ok ((λ row, row !!! i) <$> rows df)
  | None => Raise (KeyError key)
  end.

(** [df[key] = s], for a series computed from the frame itself (same
    length): an existing column is overwritten, a new one is appended. *)
Definition setitem (df : DataFrame) (key : string) (s : Series) : DataFrame :=
  match get_loc (columns df) key with
  | Some i => mkDF (columns df) (zip_with (λ row v, <[i := v]> row) (rows df) s)
  | None => mkDF (columns df ++ [key])%list (zip_with (λ row v, (row ++ [v])%list) (rows df) s)
  end.

(** [s.isin(values)] *)
Definition isin (s : Series) (values : list cell) : list bool :=
  (λ c, bool_decide (c ∈ values)) <$> s.

(** [m1 & m2] on boolean series. *)
Definition mask_and (m1 m2 : list bool) : list bool := zip_with andb m1 m2.

(** Rows picked by a boolean mask. *)
Fixpoint select {A} (l : list A) (mask : list bool) : list A :=
  match l, mask with
  | x :: l', b :: mask' => if b then x :: select l' mask' else select l' mask'
  | _, _ => []
  end.

(** [df[mask]]: boolean indexing, a new frame. *)
Definition getitem_mask (df : DataFrame) (mask : list bool) : DataFrame :=
  mkDF (columns df) (select (rows df) mask).

(** [df.empty]: some axis has length 0. *)
Definition empty (df : DataFrame) : bool :=
  bool_decide (rows df = []) || bool_decide (columns df = []).

(** *** Numbers written as text *)

Definition digit (a : ascii) : option Z :=
  let n := Z.of_N (N_of_ascii a) in
  if bool_decide (48 ≤ n ≤ 57)%Z then Some (n - 48)%Z else None.

(** Reads a run of decimal digits: value, number of digits, rest. *)
Fixpoint digits (s : string) (acc : Z) (n : nat) : Z * nat * string :=
  match s with
  | String a s' =>
      match digit a with
      | Some d => digits s' (10 * acc + d)%Z (S n)
      | None => (acc, n, s)
      end
  | EmptyString => (acc, n, s)
  end.

Definition sign (s : string) : bool * string :=
  match s with
  | String "-" s' => (true, s')
  | String "+" s' => (false, s')
  | _ => (false, s)
  end.

Definition Qc_of_Z (z : Z) : Qc := Q2Qc (inject_Z z).

Definition pow10 (e : Z) : Qc :=
  if bool_decide (0 ≤ e)%Z then Qc_of_Z (10 ^ e) else (/ Qc_of_Z (10 ^ (- e)))%Qc.

Definition with_sign (neg : bool) (q : Qc) : Qc := if neg then (- q)%Qc else q.

(** A reading of plain decimal literals, used to run the examples:
    optional sign, digits with an optional fractional part (at least one
    digit in all), optional exponent; a literal without point and
    exponent is an integer, any other text is no number.  (It is not the
    reading of pandas, which also takes blanks around a literal and the
    spellings of infinity, and rounds to [float64].) *)
Definition parse_number (s : string) : cell :=
  let '(neg, s1) := sign s in
  let '(ip, ni, s2) := digits s1 0 0 in
  let '(fp, nf, s3, dot) :=
    match s2 with
    | String "." s' => let '(f, n, r) := digits s' 0 0 in (f, n, r, true)
    | _ => (0%Z, 0%nat, s2, false)
    end in
  if bool_decide (ni + nf = 0)%nat then NaN else
  let mant : Qc := (Qc_of_Z ip + Qc_of_Z fp * pow10 (- Z.of_nat nf))%Qc in
  match s3 with
  | EmptyString =>
      if dot then Float (with_sign neg mant)
      else Int (if neg then - ip else ip)
  | String c s4 =>
      if bool_decide (c = "e"%char ∨ c = "E"%char) then
        let '(eneg, s5) := sign s4 in
        let '(ev, ne, s6) := digits s5 0 0 in
        if bool_decide (ne = 0%nat ∨ s6 ≠ "") then NaN
        else Float (with_sign neg (mant * pow10 (if eneg then - ev else ev)))
      else NaN
  end.

Section library.
Context {L : Library}.

(** [pd.to_numeric(s, errors="coerce")]: a text becomes what the library
    reads at its position in the column (a number, an infinity, or [NaN]
    for a text that is no number); numbers, infinities and [NaN] stay, so
    a numeric column is returned as it is. *)
Definition to_numeric_coerce (s : Series) : Series :=
  imap (λ i c, match c with
               | Str _ => numeric_cell (to_numeric_object s i)
               | _ => c
               end) s.

Definition notna (c : cell) : bool :=
  match c with
  | NaN => false
  | _ => true
  end.

(** [df.dropna(subset=[key])] *)
Definition dropna_subset (df : DataFrame) (key : string) : Result DataFrame :=
  s ← getitem df key;
  Ok (getitem_mask df (notna <$> s)).

(** Rounding toward zero, the float-to-integer cast. *)
Definition trunc (q : Qc) : Z := (Qnum q ÷ Z.pos (Qden q))%Z.

Definition in_int64 (z : Z) : bool := bool_decide (- 2 ^ 63 ≤ z < 2 ^ 63)%Z.

(** An integer of 64 bits read as [int64]: the identity on the range of
    [int64], wrap-around outside (a column of [uint64]). *)
Definition to_int64 (z : Z) : Z := ((z + 2 ^ 63) mod 2 ^ 64 - 2 ^ 63)%Z.

(** The cast of a finite float to [int64]: the integer part when it
    fits, what the library leaves otherwise. *)
Definition float_to_int64 (q : Qc) : Z :=
  if in_int64 (trunc q) then trunc q else to_int64 (cast_overflow q).

Definition astype_int_cell (c : cell) : Result cell :=
  match c with
  | Int z => Ok (Int (to_int64 z))
  | Float q => Ok (Int (float_to_int64 q))
  | NaN | Inf _ => Raise IntCastingNaNError
  | Str s =>
      match int_of_str s with
      | Some z => if in_int64 z then Ok (Int z) else Raise OverflowError
      | None => Raise (InvalidLiteral s)
      end
  end.

(** [s.astype(int)] *)
Fixpoint astype_int (s : Series) : Result Series :=
  match s with
  | [] => Ok []
  | c :: s' =>
      v ← astype_int_cell c;
      vs ← astype_int s';
      Ok (v :: vs)
  end.

Definition is_str (c : cell) : bool :=
  match c with
  | Str _ => true
  | _ => false
  end.

(** [s.sum()]: on a column without text, the sum the library gives.  A
    column with text has no total that is a number: the script then stops
    with a [TypeError], at the sum or at the first use of its value. *)
Definition series_sum (s : Series) : Result numeric :=
  if existsb is_str s then Raise TypeError else Ok (np_sum s).
End library.

(** *** CSV output *)

Definition newline : string := String "010" EmptyString.

Definition encode_utf8 (s : string) : list byte := String.list_byte_of_string s.

Section to_csv.
(** The text pandas writes for one value (number formatting, quoting):
    library behaviour the properties below do not depend on. *)
Context (csv_field : cell → string).

Definition csv_line (fields : list string) : string :=
  String.concat "," fields ++ newline.

Definition csv_header (df : DataFrame) : string :=
  csv_line ((λ c, csv_field (Str c)) <$> columns df).

Definition csv_row (df : DataFrame) (row : list cell) : string :=
  csv_line ((λ i, csv_field (row !!! i)) <$> seq 0 (length (columns df))).

(** [df.to_csv(index=False)]: the header line, then one line per row,
    each with one field per column in the frame's column order. *)
Definition to_csv (df : DataFrame) : string :=
  csv_header df ++ String.concat "" (csv_row df <$> rows df).
End to_csv.

(** A formatting of values, used to run the examples: text as it is
    (quoted when it holds a comma, a quote or a line break), integers in
    decimal, rationals in positional notation with at least one and at
    most 17 fractional digits, nothing for a missing value. *)
Definition dquote : ascii := "034"%char.

Fixpoint escape_quotes (s : string) : string :=
  match s with
  | EmptyString => EmptyString
  | String a s' =>
      if decide (a = dquote) then String dquote (String dquote (escape_quotes s'))
      else String a (escape_quotes s')
  end.

Fixpoint has_special (s : string) : bool :=
  match s with
  | EmptyString => false
  | String a s' =>
      bool_decide (a ∈ [","%char; dquote; "010"%char; "013"%char]) || has_special s'
  end.

Definition quote_minimal (s : string) : string :=
  if has_special s then String dquote (escape_quotes s ++ String dquote EmptyString)
  else s.

Fixpoint fraction_digits (fuel : nat) (r d : Z) : string :=
  match fuel with
  | O => EmptyString
  | S fuel' =>
      pretty (10 * r / d)%Z ++
      (if bool_decide (10 * r mod d = 0)%Z then EmptyString
       else fraction_digits fuel' (10 * r mod d)%Z d)
  end.

Definition float_text (q : Qc) : string :=
  let n := Z.abs (Qnum q) in
  let d := Z.pos (Qden q) in
  (if bool_decide (Qnum q < 0)%Z then "-" else "") ++
  pretty (n / d)%Z ++ "." ++ fraction_digits 17 (n mod d)%Z d.

Definition csv_field_default (c : cell) : string :=
  match c with
  | NaN => ""
  | Str s => quote_minimal s
  | Int z => pretty z
  | Float q => float_text q
  | Inf negative => if negative then "-inf" else "inf"
  end.

(** *** Distinct values *)

(** [s.dropna()] on a series. *)
Definition series_dropna (s : Series) : Series := filter (λ c, notna c) s.

(** [s.unique()]: the distinct values, in order of first appearance. *)
Fixpoint unique (s : Series) : Series :=
  match s with
  | [] => []
  | c :: s' => c :: filter (λ x, x ≠ c) (unique s')
  end.

(** *** Grouping *)

Definition cell_rank (c : cell) : Z :=
  match c with
  | NaN => 0
  | Int _ => 1
  | Inf true => 2
  | Float _ => 3
  | Inf false => 4
  | Str _ => 5
  end.

(** Order of labels: integers, floats (the infinities at both ends) and
    texts (by code point, which is the byte order of UTF-8) among
    themselves.  A pandas column has one dtype, so the order between an
    integer, a float and a text is never observed. *)
Definition cell_compare (a b : cell) : comparison :=
  match a, b with
  | Int x, Int y => (x ?= y)%Z
  | Float x, Float y => (x ?= y)%Qc
  | Str x, Str y => String.compare x y
  | _, _ => (cell_rank a ?= cell_rank b)%Z
  end.

Definition pair_compare (a b : cell * cell) : comparison :=
  match cell_compare a.1 b.1 with
  | Eq => cell_compare a.2 b.2
  | o => o
  end.

Fixpoint insert_key {K} (cmp : K → K → comparison) (k : K) (l : list K) : list K :=
  match l with
  | [] => [k]
  | k' :: l' =>
      match cmp k k' with
      | Eq => l
      | Lt => k :: l
      | Gt => k' :: insert_key cmp k l'
      end
  end.

(** The distinct labels of a list, in increasing order. *)
Definition sorted_unique {K} (cmp : K → K → comparison) (l : list K) : list K :=
  foldr (insert_key cmp) [] l.

(** Keys of the rows [groupby([k1, k2])] keeps: rows with a missing key
    are left out. *)
Definition group_keys (df : DataFrame) (k1 k2 : string)
  : Result (list (cell * cell)) :=
  s1 ← getitem df k1;
  s2 ← getitem df k2;
  Ok (filter (λ k, notna k.1 ∧ notna k.2) (zip s1 s2)).

(** The result of [groupby([k1, k2]).size()]: the groups in key order,
    each with its number of rows, under an index of two levels.  A level
    holds the distinct values of its key column over all the rows, in
    increasing order, used by a group or not. *)
Record GroupSizes := mkGroupSizes {
  level1 : list cell;
  level2 : list cell;
  groups : list (cell * cell * nat)
}.

Definition groupby_size (df : DataFrame) (k1 k2 : string) : Result GroupSizes :=
  s1 ← getitem df k1;
  s2 ← getitem df k2;
  keys ← group_keys df k1 k2;
  Ok (mkGroupSizes
        (sorted_unique cell_compare (series_dropna s1))
        (sorted_unique cell_compare (series_dropna s2))
        ((λ k, (k, length (filter (k =.) keys))) <$>
         sorted_unique pair_compare keys)).

Record Crosstab := mkCrosstab {
  ct_index : list cell;
  ct_columns : list cell;
  ct_values : list (list nat)
}.

(** The size recorded for a key, if the key has a group. *)
Fixpoint group_lookup (g : list (cell * cell * nat)) (k : cell * cell)
  : option nat :=
  match g with
  | [] => None
  | (k', n) :: g' => if decide (k' = k) then Some n else group_lookup g' k
  end.

(** [index.remove_unused_levels()], for one level: a level whose values
    are all used by some group stays as it is; otherwise the values used
    are kept, in the order in which the groups first use them. *)
Definition remove_unused (level used : list cell) : list cell :=
  if bool_decide (length (unique used) = length level) then level
  else unique used.

(** [sizes.unstack(fill_value=fill)]: first key down, second key across,
    the labels being the levels without their unused values. *)
Definition unstack (fill_value : nat) (g : GroupSizes) : Crosstab :=
  let index := remove_unused (level1 g) ((groups g).*1.*1) in
  let cols := remove_unused (level2 g) ((groups g).*1.*2) in
  mkCrosstab index cols
    ((λ s, (λ y, default fill_value (group_lookup (groups g) (s, y))) <$> cols)
     <$> index).

(** The number shown at row label [s], column label [y]. *)
Definition ct_at (t : Crosstab) (s y : cell) : option nat :=
  i ← get_loc (ct_index t) s;
  j ← get_loc (ct_columns t) y;
  r ← ct_values t !! i;
  r !! j.

End Pandas.
Export Pandas.

(** ** The loader, lines 6-17 *)

Definition required_cols : list string :=
  ["station"; "year"; "month"; "power_kwh"; "fee_yuan"; "price_yuan_per_kwh"].

Definition load_data {L : Library} (file : CsvFile) : Result DataFrame :=
  df ← read_csv file;
  let missing := filter (λ col, col ∉ columns df) required_cols in
  if bool_decide (missing ≠ []) then Raise (ValueError missing)
  else
    y ← getitem df "year";
    let df := setitem df "year" (to_numeric_coerce y) in
    df ← dropna_subset df "year";
    y ← getitem df "year";
    y ← astype_int y;
    Ok (setitem df "year" y).

(** ** The filter, lines 63-67 *)

Definition result (df : DataFrame) (stations years months : list cell)
  : Result DataFrame :=
  s ← getitem df "station";
  y ← getitem df "year";
  m ← getitem df "month";
  Ok (getitem_mask df
        (mask_and (mask_and (isin s stations) (isin y years)) (isin m months))).

(** ** The aggregates, lines 77-79 *)

Definition total_power {L : Library} (result : DataFrame) : Result numeric :=
  s ← getitem result "power_kwh";
  series_sum s.

Definition total_fee {L : Library} (result : DataFrame) : Result numeric :=
  s ← getitem result "fee_yuan";
  series_sum s.

(** [x > 0] and [x == 0] on a number: comparisons are exact; [NaN]
    compares false with everything. *)
Definition gt_zero (x : numeric) : bool :=
  match x with
  | NumInt z => bool_decide (0 < z)%Z
  | NumFloat q => bool_decide (0 < q)%Qc
  | NumInf negative => negb negative
  | NumNaN => false
  end.

Definition is_zero (x : numeric) : bool :=
  match x with
  | NumInt z => bool_decide (z = 0)%Z
  | NumFloat q => bool_decide (q = 0%Qc)
  | _ => false
  end.

(** [a / b].  Python raises [ZeroDivisionError] on a zero divisor (numpy
    scalars give inf or nan with a warning instead); the stricter reading
    is kept, so that only the guard of [avg_price] rules the error out. *)
Definition truediv {L : Library} (a b : numeric) : Result numeric :=
  if is_zero b then Raise ZeroDivisionError else Ok (np_truediv a b).

Definition avg_price {L : Library} (total_fee total_power : numeric)
  : Result numeric :=
  if gt_zero total_power then truediv total_fee total_power
  else Ok (NumInt 0).

(** ** The page and the script's variables *)

(** What a Streamlit call puts on the page.  Fixed texts are left out; a
    metric carries the name of the variable it shows and the value before
    formatting, the caption the number of records. *)
Inductive Widget :=
| st_error (e : Exception)
| st_divider
| st_warning
| st_subheader
| st_dataframe (data : DataFrame)
| st_metric (label : string) (value : numeric)
| st_caption (records : nat)
| st_download_button (data : list byte) (file_name mime : string).

Record Vars := mkVars {
  var_df : DataFrame;
  var_result : option DataFrame;
  var_total_power : option numeric;
  var_total_fee : option numeric;
  var_avg_price : option numeric;
  var_csv : option (list byte)
}.

(** A block of statements: reads and assigns variables, may raise, and
    writes widgets to the page (kept also when it raises). *)
Definition Script (A : Type) : Type := Vars → Result A * Vars * list Widget.

#[global] Instance Script_ret : MRet Script := λ A a v, (Ok a, v, []).
#[global] Instance Script_bind : MBind Script := λ A B f m v,
  match m v with
  | (Ok a, v', w) => let '(r, v'', w') := f a v' in (r, v'', w ++ w')%list
  | (Raise e, v', w) => (Raise e, v', w)
  end.

Definition eval {A} (r : Result A) : Script A := λ v, (r, v, []).
Definition emit (w : Widget) : Script unit := λ v, (Ok tt, v, [w]).
Definition read_df : Script DataFrame := λ v, (Ok (var_df v), v, []).

Definition assign_result (d : DataFrame) : Script unit := λ v,
  (Ok tt, mkVars (var_df v) (Some d) (var_total_power v) (var_total_fee v)
            (var_avg_price v) (var_csv v), []).
Definition assign_total_power (q : numeric) : Script unit := λ v,
  (Ok tt, mkVars (var_df v) (var_result v) (Some q) (var_total_fee v)
            (var_avg_price v) (var_csv v), []).
Definition assign_total_fee (q : numeric) : Script unit := λ v,
  (Ok tt, mkVars (var_df v) (var_result v) (var_total_power v) (Some q)
            (var_avg_price v) (var_csv v), []).
Definition assign_avg_price (q : numeric) : Script unit := λ v,
  (Ok tt, mkVars (var_df v) (var_result v) (var_total_power v)
            (var_total_fee v) (Some q) (var_csv v), []).
Definition assign_csv (b : list byte) : Script unit := λ v,
  (Ok tt, mkVars (var_df v) (var_result v) (var_total_power v)
            (var_total_fee v) (var_avg_price v) (Some b), []).

(** ** Start of a run, lines 23-27: load, or report and stop *)

Definition startup {L : Library} (file : CsvFile)
  : list Widget * option Vars :=
  match load_data file with
  | Ok df => ([], Some (mkVars df None None None None None))
  | Raise e => ([st_error e], None)
  end.

(** ** The query block, lines 61-100 (the button was pressed) *)

Section query.
Context {L : Library} (csv_field : cell → string).

(** Lines 90-92. *)
Definition convert_df_to_csv (df : DataFrame) : list byte :=
  encode_utf8 (to_csv csv_field df).

Definition query_block (stations years months : list cell) : Script unit :=
  df ← read_df;
  result ← eval (result df stations years months);
  assign_result result;;
  emit st_divider;;
  if empty result then emit st_warning
  else
    emit st_subheader;;
    emit (st_dataframe result);;
    tp ← eval (total_power result);
    assign_total_power tp;;
    tf ← eval (total_fee result);
    assign_total_fee tf;;
    ap ← eval (avg_price tf tp);
    assign_avg_price ap;;
    emit (st_metric "total_power" tp);;
    emit (st_metric "total_fee" tf);;
    emit (st_metric "avg_price" ap);;
    emit (st_caption (length (rows result)));;
    let csv := convert_df_to_csv result in
    assign_csv csv;;
    emit (st_download_button csv "query_result.csv" "text/csv").
End query.

(** ** The coverage report, line 105 *)

Definition coverage (df : DataFrame) : Result Crosstab :=
  sizes ← groupby_size df "station" "year";
  Ok (unstack 0 sizes).

(** ** The record view used to state the properties *)

(** The value a row holds in column [key]. *)
Definition field (df : DataFrame) (key : string) (row : list cell) : cell :=
  match get_loc (columns df) key with
  | Some i => row !!! i
  | None => NaN
  end.

(** The row with its value in column [key] replaced. *)
Definition with_field (df : DataFrame) (key : string) (v : cell)
    (row : list cell) : list cell :=
  match get_loc (columns df) key with
  | Some i => <[i := v]> row
  | None => row
  end.

(** A row passes the three selections. *)
Definition selected (df : DataFrame) (stations years months : list cell)
    (row : list cell) : Prop :=
  field df "station" row ∈ stations ∧
  field df "year" row ∈ years ∧
  field df "month" row ∈ months.

#[global] Instance selected_dec df stations years months row :
  Decision (selected df stations years months row).
Proof. unfold selected. apply _. Defined.

(** The year column of a table after line 14. *)
Definition coerced_years {L : Library} (t : DataFrame) : Series :=
  to_numeric_coerce (field t "year" <$> rows t).

(** The rows of a table, each with its year after line 14. *)
Definition rows_with_year {L : Library} (t : DataFrame)
  : list (list cell * cell) :=
  zip (rows t) (coerced_years t).

(** The integer that line 16 stores for a year that is a number. *)
Definition year_int {L : Library} (y : cell) : Z :=
  match y with
  | Int z => to_int64 z
  | Float q => float_to_int64 q
  | _ => 0
  end.

Definition is_int (c : cell) : Prop := ∃ z, c = Int z.

(** The rows that line 15 keeps, each with its year: those whose year
    is not missing after line 14. *)
Definition kept_rows {L : Library} (t : DataFrame) : list (list cell * cell) :=
  filter (λ p, p.2 ≠ NaN) (rows_with_year t).

Definition is_inf (c : cell) : bool :=
  match c with
  | Inf _ => true
  | _ => false
  end.

(** The row as the loader stores it: the year as an integer. *)
Definition clean_row {L : Library} (t : DataFrame) (p : list cell * cell)
  : list cell :=
  with_field t "year" (Int (year_int p.2)) p.1.





(** Number of rows of a frame with a given station and year. *)
Definition group_count (df : DataFrame) (s y : cell) : nat :=
  length (filter (λ row, field df "station" row = s ∧ field df "year" row = y)
            (rows df)).

(** The value of a finite number. *)
Definition number (c : cell) : Qc :=
  match c with
  | Int z => Qc_of_Z z
  | Float q => q
  | _ => 0%Qc
  end.

(** No cell of the column is text. *)
Definition numeric_column (df : DataFrame) (key : string) : Prop :=
  ∀ row s, row ∈ rows df → field df key row ≠ Str s.

Definition initial_vars (df : DataFrame) : Vars :=
  mkVars df None None None None None.

(** ** An instance of the library, used to run the examples

    Plain decimal literals and exact arithmetic: no rounding. *)

Definition numeric_of_cell (c : cell) : numeric :=
  match c with
  | Int z => NumInt z
  | Float q => NumFloat q
  | Inf negative => NumInf negative
  | _ => NumNaN
  end.

Definition decimal_to_numeric (s : Series) (i : nat) : numeric :=
  match s !! i with
  | Some (Str x) => numeric_of_cell (parse_number x)
  | _ => NumNaN
  end.

Definition decimal_int_of_str (s : string) : option Z :=
  match parse_number s with
  | Int z => Some z
  | _ => None
  end.

Definition exact_sum (s : Series) : numeric :=
  NumFloat (foldr (λ c acc, (number c + acc)%Qc) 0%Qc s).

Definition exact_truediv (a b : numeric) : numeric :=
  NumFloat (number (numeric_cell a) / number (numeric_cell b))%Qc.

Definition decimal_library : Library := {|
  to_numeric_object := decimal_to_numeric;
  int_of_str := decimal_int_of_str;
  cast_overflow := λ _, (- 2 ^ 63)%Z;
  np_sum := exact_sum;
  np_truediv := exact_truediv
|}.

(** ** Sample data *)

Definition sample_table : DataFrame :=
  mkDF required_cols
    [ [Str "A"; Str "2023年"; Str "3月"; Float (Qc_of_Z 90); Float (Qc_of_Z 40); NaN];
      [Str "A"; Str "2023"; Str "3月"; Float (Qc_of_Z 100); Float (Qc_of_Z 50); NaN];
      [Str "A"; Str "2023"; Str "4月"; Float (Qc_of_Z 200); Float (Qc_of_Z 80); NaN];
      [Str "B"; Str "2022.5"; Str "3月"; Int 10; Int 4; NaN] ].

Definition sample_loaded : DataFrame :=
  mkDF required_cols
    [ [Str "A"; Int 2023; Str "3月"; Float (Qc_of_Z 100); Float (Qc_of_Z 50); NaN];
      [Str "A"; Int 2023; Str "4月"; Float (Qc_of_Z 200); Float (Qc_of_Z 80); NaN];
      [Str "B"; Int 2022; Str "3月"; Int 10; Int 4; NaN] ].

Definition sample_result : DataFrame :=
  mkDF required_cols
    [ [Str "A"; Int 2023; Str "3月"; Float (Qc_of_Z 100); Float (Qc_of_Z 50); NaN];
      [Str "A"; Int 2023; Str "4月"; Float (Qc_of_Z 200); Float (Qc_of_Z 80); NaN] ].

Definition coverage_row (s : string) (y : Z) : list cell :=
  [Str s; Int y; Str "1月"; NaN; NaN; NaN].

(** Station A with 6 rows in 2022 and 12 in 2023, station B with one row
    in 2023. *)
Definition coverage_sample : DataFrame :=
  mkDF required_cols
    (replicate 6 (coverage_row "A" 2022) ++
     replicate 12 (coverage_row "A" 2023) ++
     [coverage_row "B" 2023])%list.

(** ** The selectors, lines 29-49

    The options and defaults handed to the station and year selectors.
    The month selector sorts its options with Python's [int] on the label
    and is left out. *)

(** Python's [a < b] on column values: texts by code point, numbers by
    value (the infinities at both ends), a [TypeError] between a text and
    a number; a comparison with NaN is false. *)
Definition py_lt (a b : cell) : Result bool :=
  match a, b with
  | Str x, Str y => Ok (bool_decide (String.compare x y = Lt))
  | Str _, _ | _, Str _ => Raise TypeError
  | NaN, _ | _, NaN => Ok false
  | Inf na, Inf nb => Ok (na && negb nb)
  | Inf na, _ => Ok na
  | _, Inf nb => Ok (negb nb)
  | _, _ => Ok (bool_decide (number a < number b)%Qc)
  end.

(** Python's [a == b] on column values. *)
Definition py_eq (a b : cell) : bool :=
  match a, b with
  | Str x, Str y => bool_decide (x = y)
  | Str _, _ | _, Str _ => false
  | NaN, _ | _, NaN => false
  | Inf na, Inf nb => bool_decide (na = nb)
  | Inf _, _ | _, Inf _ => false
  | _, _ => bool_decide (number a = number b)
  end.

(** Stable insertion: [x] goes before the first element greater than it. *)
Fixpoint insort (x : cell) (l : list cell) : Result (list cell) :=
  match l with
  | [] => Ok [x]
  | y :: l' =>
      b ← py_lt x y;
      if b : bool then Ok (x :: l)
      else l'' ← insort x l'; Ok (y :: l'')
  end.

Fixpoint sort_into (acc l : list cell) : Result (list cell) :=
  match l with
  | [] => Ok acc
  | x :: l' =>
      acc' ← insort x acc;
      sort_into acc' l'
  end.

(** [sorted(l, reverse=rev)]: a stable sort; with [reverse=True] the list
    is reversed before and after, as CPython does.  On values that [<]
    orders (no NaN) every stable sort gives this list; a list holding
    both texts and numbers raises [TypeError]. *)
Definition sorted (l : list cell) (rev : bool) : Result (list cell) :=
  if rev then l' ← sort_into [] (reverse l); Ok (reverse l')
  else sort_into [] l.

(** What stops a run outside the load: an exception of the operations
    above, or an index out of range. *)
Inductive Crash :=
| Uncaught (e : Exception)
| IndexError.

Inductive Attempt (A : Type) :=
| Done (a : A)
| Crashed (c : Crash).
Arguments Done {A} a.
Arguments Crashed {A} c.

#[global] Instance Attempt_ret : MRet Attempt := λ A a, Done a.
#[global] Instance Attempt_bind : MBind Attempt := λ A B f m,
  match m with
  | Done a => f a
  | Crashed c => Crashed c
  end.

Definition attempt {A} (r : Result A) : Attempt A :=
  match r with
  | Ok a => Done a
  | Raise e => Crashed (Uncaught e)
  end.

(** [l[0]] *)
Definition item0 {A} (l : list A) : Attempt A :=
  match l with
  | [] => Crashed IndexError
  | x :: _ => Done x
  end.

(** Line 32. *)
Definition valid_years (df : DataFrame) : Result (list cell) :=
  y ← getitem df "year";
  sorted (unique y) true.

(** Line 33. *)
Definition default_year (current_year : Z) (valid_years : list cell)
  : Attempt cell :=
  if existsb (py_eq (Int current_year)) valid_years then Done (Int current_year)
  else item0 valid_years.

(** Line 41 (and again line 42). *)
Definition station_options (df : DataFrame) : Result (list cell) :=
  s ← getitem df "station";
  sorted (unique (series_dropna s)) false.

(** Line 42. *)
Definition default_stations (df : DataFrame) : Attempt (list cell) :=
  options ← attempt (station_options df);
  first ← item0 options;
  Done [first].

(** Lines 32-33: the options of the year selector and its default. *)
Definition year_selector (current_year : Z) (df : DataFrame)
  : Attempt (list cell * cell) :=
  options ← attempt (valid_years df);
  default ← default_year current_year options;
  Done (options, default).

(** Order of two years, of two texts. *)
Definition year_before (a b : cell) : Prop :=
  match a, b with
  | Int x, Int y => (x < y)%Z
  | _, _ => False
  end.

Definition text_before (a b : cell) : Prop :=
  match a, b with
  | Str x, Str y => String.compare x y = Lt
  | _, _ => False
  end.

Definition is_text (c : cell) : Prop := ∃ s, c = Str s.

(** A table whose only row has a malformed year. *)
Definition malformed_table : DataFrame :=
  mkDF required_cols [ [Str "A"; Str "2023年"; Str "3月"; Int 10; Int 4; NaN] ].

(** A table with a text where a power is expected. *)
Definition text_table : DataFrame :=
  mkDF required_cols [ [Str "A"; Int 2023; Str "3月"; Str "n/a"; Float (Qc_of_Z 50); NaN] ].

(** A table whose year column is one of floats and holds an infinity. *)
Definition infinite_year_table : DataFrame :=
  mkDF required_cols
    [ [Str "A"; Float (Qc_of_Z 2023); Str "3月"; NaN; NaN; NaN];
      [Str "A"; Inf false; Str "4月"; NaN; NaN; NaN] ].


(** * Properties *)

(** Replays the equations found so far in a second run of the block. *)
Ltac rerun :=
  repeat (cbn;
    match goal with
    | H : ?x = _ |- context [?x] => rewrite H
    end); cbn.

(** A widget of one kind is not in a page written out without it. *)
Ltac not_on_page :=
  rewrite ?elem_of_cons, elem_of_nil; intros Hin;
  repeat (destruct Hin as [Hin|Hin]; [discriminate Hin|]); exact Hin.

(** ** Facts about the pandas operations *)

Section pandas_facts.
Implicit Types (df : DataFrame) (row : list cell) (key : string).

Lemma get_loc_is_Some `{EqDecision A} (labels : list A) (k : A) :
  k ∈ labels → is_Some (get_loc labels k).
Proof.
  induction labels as [|c labels IH]; [by intros ?%elem_of_nil|].
  intros Hin. simpl. case_decide; [by eexists|].
  apply elem_of_cons in Hin as [->|Hin]; [done|].
  destruct (IH Hin) as [i ->]. by eexists.
Qed.

Lemma get_loc_None `{EqDecision A} (labels : list A) (k : A) :
  k ∉ labels → get_loc labels k = None.
Proof.
  induction labels as [|c labels IH]; [done|].
  intros Hin. apply not_elem_of_cons in Hin as [Hne Hin].
  simpl. case_decide; [congruence|]. by rewrite IH.
Qed.

Lemma get_loc_lookup `{EqDecision A} (labels : list A) (k : A) i :
  get_loc labels k = Some i → labels !! i = Some k.
Proof.
  revert i. induction labels as [|c labels IH]; [done|].
  intros i. simpl. case_decide as Hc.
  - intros [= <-]. by rewrite Hc.
  - destruct (get_loc labels k) as [j|] eqn:Hj; [|done].
    intros [= <-]. by apply IH.
Qed.

Lemma getitem_loc df key i :
  get_loc (columns df) key = Some i →
  getitem df key = Ok ((λ row, row !!! i) <$> rows df).
Proof. intros Hi. unfold getitem. by rewrite Hi. Qed.

Lemma setitem_loc df key (s : Series) i :
  get_loc (columns df) key = Some i →
  setitem df key s =
    mkDF (columns df) (zip_with (λ row v, <[i := v]> row) (rows df) s).
Proof. intros Hi. unfold setitem. by rewrite Hi. Qed.

Lemma getitem_field df key i :
  get_loc (columns df) key = Some i →
  getitem df key = Ok (field df key <$> rows df).
Proof.
  intros Hi. unfold getitem. rewrite Hi. f_equal.
  apply list_fmap_ext. intros _ row _. unfold field. by rewrite Hi.
Qed.

Lemma getitem_present df key :
  key ∈ columns df → getitem df key = Ok (field df key <$> rows df).
Proof. intros [i Hi]%get_loc_is_Some. by eapply getitem_field. Qed.

Lemma select_fmap {A} (f : A → bool) (l : list A) :
  select l (f <$> l) = filter (λ x, f x) l.
Proof.
  induction l as [|x l IH]; [done|].
  rewrite fmap_cons, filter_cons. cbn [select]. rewrite IH.
  destruct (f x); by case_decide.
Qed.

Lemma mask_and_fmap {A} (f g : A → bool) (l : list A) :
  mask_and (f <$> l) (g <$> l) = (λ x, f x && g x) <$> l.
Proof.
  unfold mask_and. induction l as [|x l IH]; [done|].
  rewrite !fmap_cons. cbn [zip_with]. by rewrite IH.
Qed.

Lemma zip_with_fmap_same {A B C} (f : A → B → C) (g : A → B) (l : list A) :
  zip_with f l (g <$> l) = (λ x, f x (g x)) <$> l.
Proof.
  induction l as [|x l IH]; [done|].
  rewrite !fmap_cons. cbn [zip_with]. by rewrite IH.
Qed.

Lemma field_with_field df key v row :
  field df key row ≠ NaN → field df key (with_field df key v row) = v.
Proof.
  unfold field, with_field. destruct (get_loc (columns df) key) as [i|]; [|done].
  intros Hc. destruct (decide (i < length row)) as [Hlt|Hge].
  - by rewrite list_lookup_total_insert_eq.
  - exfalso. apply Hc. rewrite list_lookup_total_alt.
    rewrite lookup_ge_None_2; [done|lia].
Qed.

End pandas_facts.

(** ** Facts about the loader *)

Section loader_facts.
Context {L : Library}.
Implicit Types (t df : DataFrame) (row : list cell) (p : list cell * cell).

Lemma filter_fmap {A B} (P : B → Prop) `{!∀ y, Decision (P y)}
    (f : A → B) (l : list A) :
  filter P (f <$> l) = f <$> filter (λ x, P (f x)) l.
Proof.
  induction l as [|x l IH]; [done|].
  rewrite fmap_cons, !filter_cons, IH. by case_decide.
Qed.

Lemma zip_with_fmap_both {A B C D} (f : B → C → D) (g : A → B) (h : A → C)
    (l : list A) :
  zip_with f (g <$> l) (h <$> l) = (λ x, f (g x) (h x)) <$> l.
Proof.
  induction l as [|x l IH]; [done|].
  rewrite !fmap_cons. cbn [zip_with]. by rewrite IH.
Qed.

Lemma select_fmap_both {A B} (f : A → B) (g : A → bool) (l : list A) :
  select (f <$> l) (g <$> l) = f <$> filter (λ x, g x) l.
Proof.
  induction l as [|x l IH]; [done|].
  rewrite !fmap_cons, filter_cons. cbn [select]. rewrite IH.
  destruct (g x); by case_decide.
Qed.

Lemma filter_iff_elem {A} (P Q : A → Prop) `{!∀ x, Decision (P x)}
    `{!∀ x, Decision (Q x)} (l : list A) :
  (∀ x, x ∈ l → P x ↔ Q x) → filter P l = filter Q l.
Proof.
  induction l as [|x l IH]; [done|]. intros Hiff.
  rewrite !filter_cons.
  assert (P x ↔ Q x) as Hx by (apply Hiff; left).
  rewrite IH by (intros y Hy; apply Hiff; by right).
  destruct (decide (P x)), (decide (Q x)); tauto || done.
Qed.

Lemma fmap_ext_elem {A B} (f g : A → B) (l : list A) :
  (∀ x, x ∈ l → f x = g x) → f <$> l = g <$> l.
Proof.
  intros Hext. apply list_fmap_ext. intros i x Hi. apply Hext.
  by eapply list_elem_of_lookup_2.
Qed.

(** *** The range of [int64] *)

Lemma to_int64_range (z : Z) : (- 2 ^ 63 ≤ to_int64 z < 2 ^ 63)%Z.
Proof.
  unfold to_int64.
  pose proof (Z.mod_pos_bound (z + 2 ^ 63) (2 ^ 64)) as Hb. lia.
Qed.

Lemma to_int64_id (z : Z) : (- 2 ^ 63 ≤ z < 2 ^ 63)%Z → to_int64 z = z.
Proof. intros Hz. unfold to_int64. rewrite Z.mod_small; lia. Qed.

Lemma to_int64_idemp (z : Z) : to_int64 (to_int64 z) = to_int64 z.
Proof. apply to_int64_id, to_int64_range. Qed.

Lemma float_to_int64_range (q : Qc) : (- 2 ^ 63 ≤ float_to_int64 q < 2 ^ 63)%Z.
Proof.
  unfold float_to_int64, in_int64. case_bool_decide; [done|].
  apply to_int64_range.
Qed.

Lemma year_int_range (y : cell) : (- 2 ^ 63 ≤ year_int y < 2 ^ 63)%Z.
Proof.
  destruct y; cbn; try lia; [apply to_int64_range|apply float_to_int64_range].
Qed.



(** *** Line 14 *)

Lemma to_numeric_coerce_lookup (s : Series) i c :
  s !! i = Some c →
  to_numeric_coerce s !! i =
    Some (match c with
          | Str _ => numeric_cell (to_numeric_object s i)
          | _ => c
          end).
Proof.
  intros Hi. unfold to_numeric_coerce.
  apply list_lookup_imap_Some. by exists c.
Qed.

(** A column without text is returned as it is. *)
Lemma to_numeric_coerce_numeric (s : Series) :
  Forall (λ c, is_str c = false) s → to_numeric_coerce s = s.
Proof.
  intros Hs. apply list_eq. intros i.
  destruct (s !! i) as [c|] eqn:Hi.
  - rewrite (to_numeric_coerce_lookup s i c Hi). f_equal.
    pose proof (proj1 (Forall_lookup _ _) Hs i c Hi) as Hc. by destruct c.
  - apply lookup_ge_None_2. unfold to_numeric_coerce. rewrite length_imap.
    by apply lookup_ge_None_1.
Qed.

(** A row and its year after line 14: the year is kept unless it is a
    text, which the library replaces by a number, an infinity or [NaN]. *)
Lemma rows_with_year_lookup t i row y :
  rows_with_year t !! i = Some (row, y) ↔
  rows t !! i = Some row ∧ coerced_years t !! i = Some y.
Proof.
  unfold rows_with_year. rewrite lookup_zip_with_Some. split.
  - by intros (r & c & [= -> ->] & ? & ?).
  - intros [? ?]. by exists row, y.
Qed.

Lemma coerced_years_lookup t i row :
  rows t !! i = Some row →
  coerced_years t !! i =
    Some (match field t "year" row with
          | Str _ =>
              numeric_cell
                (to_numeric_object (field t "year" <$> rows t) i)
          | _ => field t "year" row
          end).
Proof.
  intros Hi. unfold coerced_years.
  apply to_numeric_coerce_lookup. by rewrite list_lookup_fmap, Hi.
Qed.

Lemma rows_with_year_elem t row y :
  (row, y) ∈ rows_with_year t →
  row ∈ rows t ∧ (∀ x, y ≠ Str x) ∧
  (is_str (field t "year" row) = false → y = field t "year" row).
Proof.
  intros [i Hi]%list_elem_of_lookup_1.
  apply rows_with_year_lookup in Hi as [Hrow Hy].
  rewrite (coerced_years_lookup t i row Hrow) in Hy. injection Hy as <-.
  split; [by eapply list_elem_of_lookup_2|].
  destruct (field t "year" row) eqn:E; cbn; try done.
  split; [|done]. intros x. by destruct (to_numeric_object _ _).
Qed.


Lemma rows_with_year_fst t : (rows_with_year t).*1 = rows t.
Proof.
  unfold rows_with_year. apply fst_zip.
  unfold coerced_years, to_numeric_coerce.
  by rewrite length_imap, length_fmap.
Qed.

Lemma rows_with_year_snd t : (rows_with_year t).*2 = coerced_years t.
Proof.
  unfold rows_with_year. apply snd_zip.
  unfold coerced_years, to_numeric_coerce.
  by rewrite length_imap, length_fmap.
Qed.

(** The year of a row that is kept is a cell of the row. *)
Lemma kept_rows_elem t p :
  p ∈ kept_rows t →
  p.1 ∈ rows t ∧ p.2 ≠ NaN ∧ (∀ x, p.2 ≠ Str x) ∧ field t "year" p.1 ≠ NaN.
Proof.
  destruct p as [row y]. intros [Hy Hin]%list_elem_of_filter. cbn in *.
  destruct (rows_with_year_elem t row y Hin) as (Hrow & Hstr & Hsame).
  repeat split; try done. intros Hnan. apply Hy.
  rewrite Hsame by (by rewrite Hnan). done.
Qed.

Lemma insert_year_lookup t (i : nat) row y :
  get_loc (columns t) "year" = Some i →
  (row, y) ∈ rows_with_year t →
  (<[i := y]> row) !!! i = y.
Proof.
  intros Hi Hin. destruct (decide (i < length row)) as [Hlt|Hge].
  - by rewrite list_lookup_total_insert_eq.
  - rewrite list_insert_ge by lia.
    destruct (rows_with_year_elem t row y Hin) as (_ & _ & Hsame).
    assert (field t "year" row = NaN) as Hnan.
    { unfold field. rewrite Hi.
      rewrite list_lookup_total_alt, lookup_ge_None_2 by lia. done. }
    rewrite Hsame by (by rewrite Hnan). rewrite Hnan.
    rewrite list_lookup_total_alt, lookup_ge_None_2 by lia. done.
Qed.

(** *** Line 16 *)

Lemma astype_int_years (k : list (list cell * cell)) :
  Forall (λ p, p.2 ≠ NaN ∧ ∀ x, p.2 ≠ Str x) k →
  astype_int (k.*2) =
    if decide (Forall (λ p, is_inf p.2 = false) k)
    then Ok ((λ p, Int (year_int p.2)) <$> k)
    else Raise IntCastingNaNError.
Proof.
  induction 1 as [|[row y] k [Hnan Hstr] _ IH]; [done|].
  rewrite fmap_cons. cbn [astype_int snd]. cbn in Hnan, Hstr.
  destruct y as [|x|z|q|b]; cbn [astype_int_cell mbind Result_bind].
  - done.
  - by destruct (Hstr x).
  - rewrite IH. destruct (decide (Forall _ k)) as [Hk|Hk].
    + rewrite decide_True by (by constructor). done.
    + rewrite decide_False; [done|]. by intros [_ ?]%Forall_cons.
  - rewrite IH. destruct (decide (Forall _ k)) as [Hk|Hk].
    + rewrite decide_True by (by constructor). done.
    + rewrite decide_False; [done|]. by intros [_ ?]%Forall_cons.
  - rewrite decide_False; [done|]. by intros [? _]%Forall_cons.
Qed.

Lemma required_cols_present t :
  filter (λ col, col ∉ columns t) required_cols = [] ↔
  ∀ c, c ∈ required_cols → c ∈ columns t.
Proof.
  split.
  - intros Hnil c Hc. destruct (decide (c ∈ columns t)) as [|Hn]; [done|].
    by destruct (filter_nil_not_elem_of _ _ c Hnil Hn).
  - intros Hall. induction required_cols as [|c l IH]; [done|].
    rewrite filter_cons. case_decide as Hc.
    + destruct Hc. apply Hall. by left.
    + apply IH. intros c' Hc'. apply Hall. by right.
Qed.

(** The loader on a table that has the six columns: the rows whose year
    is not missing after line 14, in order, each with its year stored as
    an integer, under the same header; or the error of the cast when one
    of these years is infinite. *)
Lemma load_data_Table t :
  (∀ c, c ∈ required_cols → c ∈ columns t) →
  load_data (Table t) =
    if decide (Forall (λ p, is_inf p.2 = false) (kept_rows t))
    then Ok (mkDF (columns t) (clean_row t <$> kept_rows t))
    else Raise IntCastingNaNError.
Proof.
  intros Hall.
  assert (is_Some (get_loc (columns t) "year")) as [i Hi].
  { apply get_loc_is_Some, Hall. by apply (bool_decide_unpack _). }
  unfold load_data. cbn [read_csv mbind Result_bind].
  apply required_cols_present in Hall. rewrite Hall.
  rewrite bool_decide_eq_false_2 by (intros H; by apply H).
  rewrite (getitem_field _ _ _ Hi). cbn [mbind Result_bind].
  rewrite (setitem_loc _ _ _ _ Hi).
  change (to_numeric_coerce (field t "year" <$> rows t)) with (coerced_years t).
  replace (zip_with (λ row v, <[i:=v]> row) (rows t) (coerced_years t))
    with ((λ p, <[i:=p.2]> p.1) <$> rows_with_year t); last first.
  { unfold rows_with_year.
    rewrite (zip_with_zip (λ row (v : cell), <[i:=v]> row)).
    apply list_fmap_ext. by intros _ [] _. }
  unfold dropna_subset. rewrite (getitem_loc _ _ i) by done.
  cbn [mbind Result_bind]. unfold getitem_mask. cbn [columns rows].
  rewrite <- !list_fmap_compose, select_fmap_both.
  rewrite (filter_iff_elem _ (λ p, p.2 ≠ NaN)); last first.
  { intros [row y] Hin. cbn. rewrite (insert_year_lookup t i row y Hi Hin).
    by destruct y. }
  fold (kept_rows t).
  rewrite (getitem_loc _ _ i) by done. cbn [mbind Result_bind columns rows].
  rewrite <- list_fmap_compose.
  rewrite (fmap_ext_elem _ snd (kept_rows t)); last first.
  { intros [row y] [_ Hin]%list_elem_of_filter. cbn.
    by apply (insert_year_lookup t). }
  rewrite astype_int_years; last first.
  { apply Forall_forall. intros p Hp.
    by destruct (kept_rows_elem t p Hp) as (_ & ? & ? & _). }
  destruct (decide (Forall _ (kept_rows t))) as [Hfin|Hinf]; [|done].
  cbn [mbind Result_bind]. rewrite (setitem_loc _ _ _ i) by done.
  cbn [columns rows]. do 2 f_equal.
  rewrite zip_with_fmap_both.
  apply list_fmap_ext. intros _ [row y] _. cbn.
  unfold clean_row, with_field. rewrite Hi. cbn.
  by rewrite list_insert_insert_eq.
Qed.
End loader_facts.

Section loader_outcomes.
Context {L : Library}.
Implicit Types (t df : DataFrame) (row : list cell).

Lemma load_data_missing t :
  filter (λ col, col ∉ columns t) required_cols ≠ [] →
  load_data (Table t) =
    Raise (ValueError (filter (λ col, col ∉ columns t) required_cols)).
Proof.
  intros Hm. unfold load_data. cbn [read_csv mbind Result_bind].
  by rewrite bool_decide_eq_true_2.
Qed.

Lemma load_data_inv file df :
  load_data file = Ok df →
  ∃ t, file = Table t ∧ (∀ c, c ∈ required_cols → c ∈ columns t) ∧
       Forall (λ p, is_inf p.2 = false) (kept_rows t) ∧
       df = mkDF (columns t) (clean_row t <$> kept_rows t).
Proof.
  destruct file as [e|t]; [done|]. intros Hload. exists t.
  destruct (decide (filter (λ col, col ∉ columns t) required_cols = []))
    as [Hnil|Hm].
  - pose proof (proj1 (required_cols_present t) Hnil) as Hall.
    rewrite (load_data_Table t Hall) in Hload.
    destruct (decide (Forall _ (kept_rows t))); [|done].
    by injection Hload as <-.
  - by rewrite (load_data_missing t Hm) in Hload.
Qed.

Lemma load_data_columns file df c :
  load_data file = Ok df → c ∈ required_cols → c ∈ columns df.
Proof. intros (t & _ & Hall & _ & ->)%load_data_inv Hc. by apply Hall. Qed.

Lemma clean_row_year t p :
  p ∈ kept_rows t →
  field t "year" (clean_row t p) = Int (year_int p.2).
Proof.
  intros Hp. apply field_with_field.
  by destruct (kept_rows_elem t p Hp) as (_ & _ & _ & ?).
Qed.

(** A year of a loaded table is an integer in the range of [int64]. *)
Lemma load_data_year_int64 file df row :
  load_data file = Ok df → row ∈ rows df →
  ∃ z, field df "year" row = Int z ∧ to_int64 z = z.
Proof.
  intros (t & _ & _ & _ & ->)%load_data_inv. cbn [rows].
  intros (p & -> & Hp)%list_elem_of_fmap.
  exists (year_int p.2). split; [by apply (clean_row_year t)|].
  apply to_int64_id, year_int_range.
Qed.

Lemma load_data_year_rows file df row :
  load_data file = Ok df → row ∈ rows df → is_int (field df "year" row).
Proof.
  intros Hload Hrow.
  destruct (load_data_year_int64 file df row Hload Hrow) as (z & Hz & _).
  by exists z.
Qed.
End loader_outcomes.

(** ** Facts about the filter *)

Section filter_facts.
Context {L : Library}.
Implicit Types (df : DataFrame) (stations years months : list cell).

Lemma filter_none {A} (P : A → Prop) `{!∀ x, Decision (P x)} (l : list A) :
  (∀ x, x ∈ l → ¬ P x) → filter P l = [].
Proof.
  induction l as [|x l IH]; [done|]. intros Hall.
  rewrite filter_cons_False by (apply Hall; left).
  apply IH. intros y Hy. apply Hall. by right.
Qed.

(** On a frame that has the three columns the filter cannot fail, and it
    keeps the header. *)
Lemma result_present df stations years months :
  "station" ∈ columns df → "year" ∈ columns df → "month" ∈ columns df →
  result df stations years months =
    Ok (mkDF (columns df) (filter (selected df stations years months) (rows df))).
Proof.
  intros Hs Hy Hm. unfold result.
  rewrite (getitem_present _ _ Hs), (getitem_present _ _ Hy),
    (getitem_present _ _ Hm).
  cbn [mbind Result_bind]. unfold getitem_mask, isin. f_equal. f_equal.
  rewrite <- !list_fmap_compose, !mask_and_fmap, select_fmap.
  apply list_filter_iff. intros row. unfold selected. cbn.
  rewrite !andb_True, !bool_decide_spec. tauto.
Qed.

Lemma result_loaded file df stations years months :
  load_data file = Ok df →
  result df stations years months =
    Ok (mkDF (columns df) (filter (selected df stations years months) (rows df))).
Proof.
  intros Hload.
  apply result_present; eapply load_data_columns; try done;
    by apply (bool_decide_unpack _).
Qed.
End filter_facts.

(** ** The sample file loads *)

Lemma sample_load :
  load_data (L := decimal_library) (Table sample_table) = Ok sample_loaded.
Proof. reflexivity. Qed.

(** ** The filter returns the selected subsequence *)

(** C1: on every loaded table and for every three selections, the query
    result is the subsequence of the table's rows, in their order, made of
    exactly the rows whose station is among the stations, whose year is
    among the years and whose month is among the months. *)
Theorem result_selected_subsequence {L : Library}
    file df stations years months :
  load_data file = Ok df →
  ∃ res, result df stations years months = Ok res ∧
    columns res = columns df ∧
    rows res = filter (selected df stations years months) (rows df) ∧
    rows res `sublist_of` rows df ∧
    (∀ row, row ∈ rows res ↔
       row ∈ rows df ∧
       field df "station" row ∈ stations ∧
       field df "year" row ∈ years ∧
       field df "month" row ∈ months).
Proof.
  intros Hload. eexists. split; [by eapply result_loaded|].
  cbn [columns rows]. split; [done|]. split; [done|].
  split; [apply sublist_filter|].
  intros row. rewrite list_elem_of_filter. unfold selected. tauto.
Qed.

Lemma result_selected_subsequence_witness :
  load_data (L := decimal_library) (Table sample_table) = Ok sample_loaded ∧
  ∃ res, result sample_loaded [Str "A"] [Int 2023] [Str "3月"] = Ok res ∧
    columns res = columns sample_loaded ∧
    rows res = filter (selected sample_loaded [Str "A"] [Int 2023] [Str "3月"])
                 (rows sample_loaded) ∧
    rows res `sublist_of` rows sample_loaded ∧
    (∀ row, row ∈ rows res ↔
       row ∈ rows sample_loaded ∧
       field sample_loaded "station" row ∈ [Str "A"] ∧
       field sample_loaded "year" row ∈ [Int 2023] ∧
       field sample_loaded "month" row ∈ [Str "3月"]).
Proof.
  split; [reflexivity|].
  apply (result_selected_subsequence (L := decimal_library)
           (Table sample_table)).
  reflexivity.
Defined.

(** The example of the specification: one matching row, returned alone. *)
Example result_single_match :
  result sample_loaded [Str "A"] [Int 2023] [Str "3月"] =
    Ok (mkDF required_cols
          [[Str "A"; Int 2023; Str "3月"; Float (Qc_of_Z 100); Float (Qc_of_Z 50); NaN]]).
Proof. reflexivity. Qed.

(** ** An empty selection selects nothing *)

(** C5: on every loaded table, when the stations, the years or the months
    selected are none, the query result has no row. *)
Theorem result_empty_selection {L : Library} file df stations years months :
  load_data file = Ok df →
  stations = [] ∨ years = [] ∨ months = [] →
  ∃ res, result df stations years months = Ok res ∧ rows res = [].
Proof.
  intros Hload Hsel. eexists. split; [by eapply result_loaded|].
  cbn [rows]. apply filter_none.
  intros row _ (Hs & Hy & Hm).
  destruct Hsel as [-> | [-> | ->]]; by eapply not_elem_of_nil.
Qed.

Lemma result_empty_selection_witness :
  load_data (L := decimal_library) (Table sample_table) = Ok sample_loaded ∧
  ([Str "A"] = [] ∨ @nil cell = [] ∨ [Str "3月"] = []) ∧
  ∃ res, result sample_loaded [Str "A"] [] [Str "3月"] = Ok res ∧ rows res = [].
Proof.
  split; [reflexivity|]. split; [right; left; reflexivity|].
  apply (result_empty_selection (L := decimal_library) (Table sample_table)).
  - reflexivity.
  - right; left; reflexivity.
Defined.

(** ** The schema check *)

(** C3: loading a table raises the schema error (the script's
    [ValueError]) exactly when one of the six required columns is absent,
    and the error then lists the absent required columns, no other; a
    table without [fee_yuan] raises the error naming [fee_yuan]. *)
Theorem load_data_schema_error {L : Library} t :
  ((∃ m, load_data (Table t) = Raise (ValueError m)) ↔
   (∃ c, c ∈ required_cols ∧ c ∉ columns t)) ∧
  (∀ m, load_data (Table t) = Raise (ValueError m) →
     m = filter (λ col, col ∉ columns t) required_cols ∧
     ∀ c, c ∈ m ↔ c ∈ required_cols ∧ c ∉ columns t) ∧
  (∀ data,
     load_data
       (Table (mkDF ["station"; "year"; "month"; "power_kwh"; "price_yuan_per_kwh"]
                 data)) = Raise (ValueError ["fee_yuan"])).
Proof.
  assert (∀ m, load_data (Table t) = Raise (ValueError m) →
            m = filter (λ col, col ∉ columns t) required_cols ∧ m ≠ []) as Hm.
  { intros m Hload.
    destruct (decide (filter (λ col, col ∉ columns t) required_cols = []))
      as [Hnil|Hne].
    - pose proof (proj1 (required_cols_present t) Hnil) as Hall.
      rewrite (load_data_Table t Hall) in Hload. by case_decide.
    - rewrite (load_data_missing t Hne) in Hload. by injection Hload as <-. }
  split; [split|split].
  - intros [m [-> Hne]%Hm].
    destruct (filter _ required_cols) as [|c l] eqn:E; [done|].
    exists c. assert (c ∈ c :: l) as Hc by left.
    rewrite <- E in Hc. apply list_elem_of_filter in Hc. tauto.
  - intros (c & Hreq & Habs). eexists. apply load_data_missing.
    intros Hnil. by eapply (filter_nil_not_elem_of _ _ c Hnil).
  - intros m [-> _]%Hm. split; [done|]. intros c.
    rewrite list_elem_of_filter. tauto.
  - intros data. by rewrite load_data_missing.
Qed.

(** ** Years after loading *)



(** ** Years with a fractional part *)



(** ** Facts about grouping *)

Section label_order.

Lemma cell_compare_eq a b : cell_compare a b = Eq → a = b.
Proof.
  destruct a as [| | | |[]], b as [| | | |[]]; cbn; try done.
  - by intros ->%String.compare_eq_iff.
  - by intros ->%Z.compare_eq.
  - by intros ->%Qceq_alt.
Qed.

Lemma pair_compare_eq a b : pair_compare a b = Eq → a = b.
Proof.
  destruct a as [a1 a2], b as [b1 b2]. unfold pair_compare. cbn.
  destruct (cell_compare a1 b1) eqn:E1; try done.
  intros E2. by rewrite (cell_compare_eq _ _ E1), (cell_compare_eq _ _ E2).
Qed.

Lemma string_compare_trans (s1 s2 s3 : string) :
  String.compare s1 s2 = Lt → String.compare s2 s3 = Lt →
  String.compare s1 s3 = Lt.
Proof.
  revert s2 s3. induction s1 as [|a s1 IH]; intros [|b s2] [|c s3]; try done.
  cbn [String.compare]. unfold Ascii.compare.
  destruct (N.compare_spec (N_of_ascii a) (N_of_ascii b)) as [Hab|Hab|Hab];
    destruct (N.compare_spec (N_of_ascii b) (N_of_ascii c)) as [Hbc|Hbc|Hbc];
    try done; intros H1 H2.
  - rewrite Hab, Hbc, N.compare_refl. by eapply IH.
  - rewrite Hab. by rewrite (proj2 (N.compare_lt_iff _ _) Hbc).
  - rewrite <- Hbc. by rewrite (proj2 (N.compare_lt_iff _ _) Hab).
  - by rewrite (proj2 (N.compare_lt_iff _ _) (N.lt_trans _ _ _ Hab Hbc)).
Qed.

Lemma cell_compare_antisym a b :
  cell_compare a b = CompOpp (cell_compare b a).
Proof.
  destruct a as [| | | |[]], b as [| | | |[]]; cbn; try done.
  - apply String.compare_antisym.
  - apply Z.compare_antisym.
  - unfold Qccompare, Qcompare. apply Z.compare_antisym.
Qed.

Lemma cell_compare_trans a b c :
  cell_compare a b = Lt → cell_compare b c = Lt → cell_compare a c = Lt.
Proof.
  destruct a as [| | | |[]], b as [| | | |[]], c as [| | | |[]]; cbn; try done.
  - apply string_compare_trans.
  - rewrite !Z.compare_lt_iff. lia.
  - rewrite <- !Qclt_alt. apply Qclt_trans.
Qed.

Lemma cell_compare_irrefl a : cell_compare a a ≠ Lt.
Proof.
  intros H. pose proof (cell_compare_antisym a a) as Ha.
  rewrite H in Ha. done.
Qed.

Lemma elem_of_insert_key {K} (cmp : K → K → comparison) k (l : list K) x :
  (∀ a b, cmp a b = Eq → a = b) →
  x ∈ insert_key cmp k l ↔ x = k ∨ x ∈ l.
Proof.
  intros Hcmp. induction l as [|k' l IH]; cbn.
  - rewrite list_elem_of_singleton, elem_of_nil. tauto.
  - destruct (cmp k k') eqn:E.
    + apply Hcmp in E as ->. rewrite elem_of_cons. tauto.
    + by rewrite elem_of_cons.
    + rewrite !elem_of_cons, IH. tauto.
Qed.

Lemma elem_of_sorted_unique {K} (cmp : K → K → comparison) (l : list K) x :
  (∀ a b, cmp a b = Eq → a = b) →
  x ∈ sorted_unique cmp l ↔ x ∈ l.
Proof.
  intros Hcmp. unfold sorted_unique. induction l as [|k l IH]; [done|].
  cbn [foldr]. by rewrite elem_of_insert_key, IH, elem_of_cons.
Qed.

(** Inserting a label keeps a list of labels strictly increasing. *)
Lemma insert_key_sorted k (l : list cell) :
  StronglySorted (λ a b, cell_compare a b = Lt) l →
  StronglySorted (λ a b, cell_compare a b = Lt) (insert_key cell_compare k l).
Proof.
  induction 1 as [|k' l Hl IH Hall]; cbn [insert_key].
  - repeat constructor.
  - destruct (cell_compare k k') eqn:E.
    + by constructor.
    + constructor; [by constructor|]. constructor; [done|].
      eapply Forall_impl; [done|]. intros x Hx. by eapply cell_compare_trans.
    + constructor; [done|]. apply Forall_forall. intros x Hx.
      apply elem_of_insert_key in Hx; [|apply cell_compare_eq].
      destruct Hx as [->|Hx].
      * rewrite cell_compare_antisym, E. done.
      * by apply (proj1 (Forall_forall _ _) Hall).
Qed.

Lemma sorted_unique_sorted (l : list cell) :
  StronglySorted (λ a b, cell_compare a b = Lt) (sorted_unique cell_compare l).
Proof.
  unfold sorted_unique. induction l as [|k l IH]; cbn [foldr].
  - constructor.
  - by apply insert_key_sorted.
Qed.

Lemma strictly_sorted_NoDup (l : list cell) :
  StronglySorted (λ a b, cell_compare a b = Lt) l → NoDup l.
Proof.
  induction 1 as [|k l Hl IH Hall]; constructor; [|done].
  intros Hin. by destruct (cell_compare_irrefl k);
    apply (proj1 (Forall_forall _ _) Hall).
Qed.

Lemma elem_of_unique (s : Series) x : x ∈ unique s ↔ x ∈ s.
Proof.
  induction s as [|c s IH]; [done|]. cbn [unique].
  rewrite !elem_of_cons, list_elem_of_filter, IH.
  destruct (decide (x = c)); tauto.
Qed.

Lemma NoDup_unique (s : Series) : NoDup (unique s).
Proof.
  induction s as [|c s IH]; cbn [unique]; [constructor|].
  constructor; [|by apply NoDup_filter].
  intros [Hne _]%list_elem_of_filter. done.
Qed.

(** A level without its unused values holds the values used, each
    once. *)
Lemma elem_of_remove_unused (level used : list cell) x :
  NoDup level → (∀ y, y ∈ used → y ∈ level) →
  x ∈ remove_unused level used ↔ x ∈ used.
Proof.
  intros Hnd Hsub. unfold remove_unused.
  case_bool_decide as Hlen; [|apply elem_of_unique].
  assert (unique used ≡ₚ level) as Hperm.
  { apply submseteq_length_Permutation; [|lia].
    apply NoDup_submseteq; [apply NoDup_unique|].
    intros y Hy. by apply Hsub, elem_of_unique. }
  by rewrite <- Hperm, elem_of_unique.
Qed.

Lemma NoDup_remove_unused (level used : list cell) :
  NoDup level → NoDup (remove_unused level used).
Proof.
  intros Hnd. unfold remove_unused. case_bool_decide; [done|].
  apply NoDup_unique.
Qed.

End label_order.

Section grouping_facts.
Implicit Types (df : DataFrame) (g : GroupSizes).

Lemma group_lookup_sizes (f : cell * cell → nat) (ks : list (cell * cell)) k :
  group_lookup ((λ k, (k, f k)) <$> ks) k =
    if decide (k ∈ ks) then Some (f k) else None.
Proof.
  induction ks as [|k' ks IH]; [done|].
  rewrite fmap_cons. cbn [group_lookup]. rewrite IH.
  destruct (decide (k' = k)) as [->|Hne].
  - rewrite decide_True; [done|by left].
  - destruct (decide (k ∈ ks)) as [Hin|Hnin].
    + rewrite decide_True; [done|by right].
    + rewrite decide_False; [done|].
      intros [?|?]%elem_of_cons; congruence.
Qed.

Lemma zip_fmap_both {A} (f h : A → cell) (l : list A) :
  zip (f <$> l) (h <$> l) = (λ x, (f x, h x)) <$> l.
Proof. apply zip_with_fmap_both. Qed.

(** The keys of the groups are the (station, year) pairs of the rows with
    both values present. *)
Lemma group_keys_present df :
  "station" ∈ columns df → "year" ∈ columns df →
  group_keys df "station" "year" =
    Ok ((λ row, (field df "station" row, field df "year" row)) <$>
        filter (λ row, field df "station" row ≠ NaN ∧ field df "year" row ≠ NaN)
          (rows df)).
Proof.
  intros Hs Hy. unfold group_keys.
  rewrite (getitem_present _ _ Hs), (getitem_present _ _ Hy).
  cbn [mbind Result_bind]. f_equal. rewrite zip_fmap_both, filter_fmap.
  f_equal. apply list_filter_iff. intros row. cbn.
  by destruct (field df "station" row), (field df "year" row); cbn;
    intuition congruence.
Qed.

Lemma group_size_count df s y :
  s ≠ NaN → y ≠ NaN →
  length (filter ((s, y) =.)
            ((λ row, (field df "station" row, field df "year" row)) <$>
             filter (λ row, field df "station" row ≠ NaN ∧ field df "year" row ≠ NaN)
               (rows df))) =
  group_count df s y.
Proof.
  intros Hs Hy. rewrite filter_fmap, length_fmap, list_filter_filter.
  unfold group_count. f_equal. apply list_filter_iff. intros row. cbn.
  split.
  - by intros [[= <- <-] _].
  - intros [<- <-]. by split.
Qed.

Lemma elem_of_series_dropna (s : Series) x :
  x ∈ series_dropna s ↔ x ≠ NaN ∧ x ∈ s.
Proof.
  unfold series_dropna. rewrite list_elem_of_filter.
  by destruct x; cbn; intuition congruence.
Qed.

(** The coverage report on a frame that has both columns: its labels are
    the stations and the years of the keys, each once, and the number at
    two labels is the number of keys equal to the pair. *)
Lemma coverage_cells df :
  "station" ∈ columns df → "year" ∈ columns df →
  ∃ keys cov,
    keys = (λ row, (field df "station" row, field df "year" row)) <$>
           filter (λ row, field df "station" row ≠ NaN ∧ field df "year" row ≠ NaN)
             (rows df) ∧
    coverage df = Ok cov ∧
    (∀ s, s ∈ ct_index cov ↔ ∃ y, (s, y) ∈ keys) ∧
    (∀ y, y ∈ ct_columns cov ↔ ∃ s, (s, y) ∈ keys) ∧
    NoDup (ct_index cov) ∧ NoDup (ct_columns cov) ∧
    ct_index cov =
      remove_unused
        (sorted_unique cell_compare (series_dropna (field df "station" <$> rows df)))
        ((sorted_unique pair_compare keys).*1) ∧
    ct_columns cov =
      remove_unused
        (sorted_unique cell_compare (series_dropna (field df "year" <$> rows df)))
        ((sorted_unique pair_compare keys).*2) ∧
    ct_values cov =
      (λ s, (λ y, length (filter ((s, y) =.) keys)) <$> ct_columns cov) <$>
      ct_index cov.
Proof.
  intros Hs Hy.
  set (keys := (λ row, (field df "station" row, field df "year" row)) <$>
               filter (λ row, field df "station" row ≠ NaN ∧
                              field df "year" row ≠ NaN) (rows df)).
  set (ks := sorted_unique pair_compare keys).
  set (l1 := sorted_unique cell_compare
               (series_dropna (field df "station" <$> rows df))).
  set (l2 := sorted_unique cell_compare
               (series_dropna (field df "year" <$> rows df))).
  exists keys,
    (unstack 0 (mkGroupSizes l1 l2
                  ((λ k, (k, length (filter (k =.) keys))) <$> ks))).
  split; [done|]. split.
  { unfold coverage, groupby_size.
    rewrite (getitem_present _ _ Hs), (getitem_present _ _ Hy).
    cbn [mbind Result_bind]. by rewrite (group_keys_present df Hs Hy). }
  assert (((λ k, (k, length (filter (k =.) keys))) <$> ks).*1 = ks) as Hfst.
  { rewrite <- list_fmap_compose. rewrite (list_fmap_ext _ id ks) by done.
    apply list_fmap_id. }
  assert (∀ k, k ∈ ks ↔ k ∈ keys) as Hks.
  { intros k. apply elem_of_sorted_unique, pair_compare_eq. }
  assert (∀ s y, (s, y) ∈ keys →
            ∃ row, row ∈ rows df ∧ s = field df "station" row ∧ s ≠ NaN ∧
                   y = field df "year" row ∧ y ≠ NaN) as Hk.
  { intros s y. unfold keys. rewrite list_elem_of_fmap.
    intros (row & [= -> ->] & [[? ?] ?]%list_elem_of_filter). by exists row. }
  assert (NoDup l1 ∧ NoDup l2) as [Hnd1 Hnd2].
  { split; apply strictly_sorted_NoDup, sorted_unique_sorted. }
  assert (∀ s, s ∈ ks.*1 → s ∈ l1) as Hsub1.
  { intros s ([s' y] & -> & (row & ? & -> & ? & _)%Hks%Hk)%list_elem_of_fmap.
    cbn. apply elem_of_sorted_unique; [apply cell_compare_eq|].
    apply elem_of_series_dropna. split; [done|].
    by apply list_elem_of_fmap_2. }
  assert (∀ y, y ∈ ks.*2 → y ∈ l2) as Hsub2.
  { intros y ([s y'] & -> & (row & ? & _ & _ & -> & ?)%Hks%Hk)%list_elem_of_fmap.
    cbn. apply elem_of_sorted_unique; [apply cell_compare_eq|].
    apply elem_of_series_dropna. split; [done|].
    by apply list_elem_of_fmap_2. }
  cbn [unstack ct_index ct_columns ct_values level1 level2 groups].
  rewrite Hfst.
  split; [|split; [|split; [|split; [|split; [done|split; [done|]]]]]].
  - intros s. rewrite elem_of_remove_unused by done.
    rewrite list_elem_of_fmap. split.
    + intros ([s' y] & -> & Hin%Hks). by exists y.
    + intros (y & Hin). exists (s, y). split; [done|]. by apply Hks.
  - intros y. rewrite elem_of_remove_unused by done.
    rewrite list_elem_of_fmap. split.
    + intros ([s y'] & -> & Hin%Hks). by exists s.
    + intros (s & Hin). exists (s, y). split; [done|]. by apply Hks.
  - by apply NoDup_remove_unused.
  - by apply NoDup_remove_unused.
  - apply list_fmap_ext. intros _ s _. apply list_fmap_ext. intros _ y _.
    cbn. rewrite group_lookup_sizes. case_decide as Hin; [done|]. cbn.
    symmetry. apply length_zero_iff_nil, filter_none.
    intros k Hkin <-. by apply Hin, Hks.
Qed.

(** The number at two labels of the report. *)
Lemma ct_at_values (cov : Crosstab) (f : cell → cell → nat) s y :
  ct_values cov = (λ s, f s <$> ct_columns cov) <$> ct_index cov →
  s ∈ ct_index cov → y ∈ ct_columns cov →
  ct_at cov s y = Some (f s y).
Proof.
  intros Hval [i Hi]%get_loc_is_Some [j Hj]%get_loc_is_Some.
  unfold ct_at. rewrite Hi, Hj. cbn [mbind option_bind].
  apply get_loc_lookup in Hi, Hj.
  rewrite Hval, list_lookup_fmap, Hi. cbn. by rewrite list_lookup_fmap, Hj.
Qed.
End grouping_facts.

(** ** The coverage report *)

(** C8: on every loaded table the coverage report has one line per station
    and one column per year found in the rows (rows without a station are
    left out), and the number at a station and a year is the number of
    rows with that station and that year, which is 0 for a pair that no
    row has.  With 6 rows of station A in 2022 and 12 in 2023 the numbers
    at (A, 2022) and (A, 2023) are 6 and 12, and a station seen only in
    2023 shows 0 in 2022. *)
Theorem coverage_counts {L : Library} file df :
  load_data file = Ok df →
  (∃ cov, coverage df = Ok cov ∧
     (∀ s, s ∈ ct_index cov ↔
        s ≠ NaN ∧ ∃ row, row ∈ rows df ∧ field df "station" row = s) ∧
     (∀ y, y ∈ ct_columns cov ↔
        ∃ row, row ∈ rows df ∧ field df "station" row ≠ NaN ∧
               field df "year" row = y) ∧
     (∀ s y, s ∈ ct_index cov → y ∈ ct_columns cov →
        ct_at cov s y = Some (group_count df s y)) ∧
     (∀ s y, (∀ row, row ∈ rows df →
                ¬ (field df "station" row = s ∧ field df "year" row = y)) →
        group_count df s y = 0%nat)) ∧
  coverage coverage_sample =
    Ok (mkCrosstab [Str "A"; Str "B"] [Int 2022; Int 2023]
          [[6; 12]; [0; 1]]%nat).
Proof.
  intros Hload. split; [|reflexivity].
  assert ("station" ∈ columns df) as Hs.
  { eapply load_data_columns; [done|]. by apply (bool_decide_unpack _). }
  assert ("year" ∈ columns df) as Hy.
  { eapply load_data_columns; [done|]. by apply (bool_decide_unpack _). }
  assert (∀ row, row ∈ rows df → field df "year" row ≠ NaN) as Hyear.
  { intros row Hrow.
    destruct (load_data_year_rows _ _ row Hload Hrow) as [z ->]. done. }
  destruct (coverage_cells df Hs Hy)
    as (keys & cov & Hkeys & Hcov & Hidx & Hcol & _ & _ & _ & _ & Hval).
  exists cov. split; [done|].
  assert (∀ k, k ∈ keys ↔
            ∃ row, row ∈ rows df ∧ field df "station" row ≠ NaN ∧
                   k = (field df "station" row, field df "year" row)) as Hk.
  { intros k. rewrite Hkeys, list_elem_of_fmap. split.
    - intros (row & -> & [[? ?] ?]%list_elem_of_filter). by exists row.
    - intros (row & ? & ? & ->). exists row. split; [done|].
      apply list_elem_of_filter. auto. }
  split; [|split; [|split]].
  - intros s. rewrite Hidx. split.
    + intros (y & (row & ? & ? & [= -> ->])%Hk). eauto.
    + intros (Hne & row & Hrow & <-). exists (field df "year" row).
      apply Hk. by exists row.
  - intros y. rewrite Hcol. split.
    + intros (s & (row & ? & ? & [= -> ->])%Hk). eauto.
    + intros (row & Hrow & Hne & <-). exists (field df "station" row).
      apply Hk. by exists row.
  - intros s y Hsi Hyi.
    rewrite (ct_at_values cov _ s y Hval Hsi Hyi). f_equal.
    apply Hidx in Hsi as (y' & (r & ? & ? & [= -> ->])%Hk).
    apply Hcol in Hyi as (s' & (r' & ? & ? & [= -> ->])%Hk).
    rewrite Hkeys. apply group_size_count; auto.
  - intros s y Hnone. unfold group_count.
    by rewrite filter_none.
Qed.

Lemma coverage_counts_witness :
  load_data (L := decimal_library) (Table sample_table) = Ok sample_loaded ∧
  ∃ cov, coverage sample_loaded = Ok cov ∧
    ct_at cov (Str "A") (Int 2023) = Some 2%nat ∧
    ct_at cov (Str "A") (Int 2022) = Some 0%nat.
Proof.
  split; [reflexivity|].
  destruct (coverage_counts (L := decimal_library) (Table sample_table)
              sample_loaded eq_refl)
    as [(cov & Hcov & _ & _ & Hat & _) _].
  exists cov. split; [done|].
  injection Hcov as <-. split; reflexivity.
Defined.


(** ** Facts about the aggregates *)

Section aggregate_facts.
Context {L : Library}.
Implicit Types (df res : DataFrame) (v : Vars).

Lemma existsb_is_str_numeric {A} (f : A → cell) (l : list A) :
  (∀ x s, x ∈ l → f x ≠ Str s) → existsb is_str (f <$> l) = false.
Proof.
  induction l as [|x l IH]; [done|]. intros Hnum.
  rewrite fmap_cons. cbn [existsb]. rewrite IH; last first.
  { intros y s Hy. apply Hnum. by right. }
  rewrite orb_false_r. destruct (f x) as [|s| | |] eqn:E; try done.
  by destruct (Hnum x s (list_elem_of_here _ _)).
Qed.

(** The total of a column without text is the sum the library gives for
    the values of the column. *)
Lemma column_total df key :
  key ∈ columns df → numeric_column df key →
  (s ← getitem df key; series_sum s) = Ok (np_sum (field df key <$> rows df)).
Proof.
  intros Hk Hnum. rewrite (getitem_present _ _ Hk). cbn [mbind Result_bind].
  unfold series_sum. by rewrite existsb_is_str_numeric.
Qed.


Lemma gt_zero_not_zero (x : numeric) : gt_zero x = true → is_zero x = false.
Proof.
  destruct x as [|z|q|b]; cbn; try done.
  - intros Hz%bool_decide_eq_true. apply bool_decide_eq_false. lia.
  - intros Hq%bool_decide_eq_true. apply bool_decide_eq_false.
    intros ->. by apply Qclt_not_eq in Hq.
Qed.

(** The guard makes the division total. *)
Lemma avg_price_total (tf tp : numeric) :
  avg_price tf tp = Ok (if gt_zero tp then np_truediv tf tp else NumInt 0).
Proof.
  unfold avg_price, truediv. destruct (gt_zero tp) eqn:Hpos; [|done].
  by rewrite gt_zero_not_zero.
Qed.
End aggregate_facts.

(** ** Facts about the query block *)

Section query_facts.
Context {L : Library} (csv_field : cell → string).
Implicit Types (df res : DataFrame) (v : Vars) (stations years months : list cell).

(** No row selected: the warning, nothing else. *)
Lemma query_block_warning v stations years months res :
  result (var_df v) stations years months = Ok res →
  empty res = true →
  query_block csv_field stations years months v =
    (Ok tt,
     mkVars (var_df v) (Some res) (var_total_power v) (var_total_fee v)
       (var_avg_price v) (var_csv v),
     [st_divider; st_warning]).
Proof.
  intros Hres Hempty. unfold query_block.
  cbv [mbind Script_bind read_df eval assign_result emit].
  rewrite Hres. cbn. rewrite Hempty. reflexivity.
Qed.

(** Some rows selected and the totals computed: the whole results page. *)
Lemma query_block_results v stations years months res tp tf ap :
  result (var_df v) stations years months = Ok res →
  empty res = false →
  total_power res = Ok tp →
  total_fee res = Ok tf →
  avg_price tf tp = Ok ap →
  query_block csv_field stations years months v =
    (Ok tt,
     mkVars (var_df v) (Some res) (Some tp) (Some tf) (Some ap)
       (Some (convert_df_to_csv csv_field res)),
     [st_divider; st_subheader; st_dataframe res;
      st_metric "total_power" tp; st_metric "total_fee" tf;
      st_metric "avg_price" ap; st_caption (length (rows res));
      st_download_button (convert_df_to_csv csv_field res)
        "query_result.csv" "text/csv"]).
Proof.
  intros Hres Hempty Htp Htf Hap. unfold query_block.
  cbv [mbind Script_bind read_df eval assign_result emit].
  rewrite Hres. cbn. rewrite Hempty.
  cbv [mbind Script_bind read_df eval assign_total_power assign_total_fee
       assign_avg_price assign_csv emit].
  rewrite Htp. cbn. rewrite Htf. cbn. rewrite Hap. reflexivity.
Qed.

Lemma empty_loaded file df stations years months res :
  load_data file = Ok df →
  result df stations years months = Ok res →
  empty res = bool_decide (rows res = []).
Proof.
  intros Hload Hres. rewrite (result_loaded _ _ _ _ _ Hload) in Hres.
  injection Hres as <-. unfold empty. cbn [columns rows].
  assert ("year" ∈ columns df) as Hy.
  { eapply load_data_columns; [done|]. by apply (bool_decide_unpack _). }
  rewrite (bool_decide_eq_false_2 (columns df = [])), orb_false_r; [done|].
  intros Hnil. rewrite Hnil in Hy. by apply elem_of_nil in Hy.
Qed.
End query_facts.

(** ** What the steps of the query block can raise *)

Section raises.
Context {L : Library}.
Implicit Types (df res : DataFrame) (s : Series).



Lemma series_sum_raises s e : series_sum s = Raise e → e = TypeError.
Proof. unfold series_sum. case_match; [|done]. by intros [= <-]. Qed.

End raises.

(** ** The aggregates of a query *)

Lemma numeric_column_check df key :
  forallb (λ row, match field df key row with Str _ => false | _ => true end)
    (rows df) = true →
  numeric_column df key.
Proof.
  intros Hall row s Hrow Hstr.
  apply list_elem_of_In in Hrow.
  pose proof (proj1 (forallb_forall _ _) Hall row Hrow) as Hc.
  cbn in Hc. by rewrite Hstr in Hc.
Qed.

(** C2 does not hold as stated: a query of a loaded table can return a
    row whose power is a text; the block then stops with a [TypeError]
    after showing the rows, and stores and shows no total. *)
Lemma total_of_text_column :
  (∀ L : Library,
     load_data (Table text_table) = Ok text_table ∧
     result text_table [Str "A"] [Int 2023] [Str "3月"] = Ok text_table ∧
     query_block csv_field_default [Str "A"] [Int 2023] [Str "3月"]
       (initial_vars text_table) =
       (Raise TypeError,
        mkVars text_table (Some text_table) None None None None,
        [st_divider; st_subheader; st_dataframe text_table])) ∧
  (∀ L : Library,
     ¬ (∀ (csv_field : cell → string) file v stations years months res,
          load_data file = Ok (var_df v) →
          result (var_df v) stations years months = Ok res →
          rows res ≠ [] →
          ∃ v' w,
            query_block csv_field stations years months v = (Ok tt, v', w) ∧
            var_total_power v' =
              Some (np_sum (field res "power_kwh" <$> rows res)))).
Proof.
  split; [intros L; by repeat split|].
  intros L Hall.
  destruct (Hall csv_field_default (Table text_table) (initial_vars text_table)
              [Str "A"] [Int 2023] [Str "3月"] text_table eq_refl eq_refl)
    as (v' & w & Hrun & _); [done|].
  discriminate Hrun.
Qed.



(** The example of the specification, with exact arithmetic: powers 100
    and 200, fees 50 and 80. *)
Example aggregates_example :
  total_power (L := decimal_library) sample_result = Ok (NumFloat (Qc_of_Z 300)) ∧
  total_fee (L := decimal_library) sample_result = Ok (NumFloat (Qc_of_Z 130)) ∧
  avg_price (L := decimal_library) (NumFloat (Qc_of_Z 130)) (NumFloat (Qc_of_Z 300)) =
    Ok (NumFloat (Q2Qc (13 # 30))) ∧
  avg_price (L := decimal_library) (NumFloat (Qc_of_Z 130)) (NumFloat 0%Qc) =
    Ok (NumInt 0).
Proof.
  split; [|split; [|split; [|reflexivity]]];
    vm_compute; do 2 f_equal; by apply Qc_is_canon.
Qed.

(** ** The query block changes nothing it reads *)

(** C9: a run of the query block leaves the loaded table as it was, header
    and rows; run again with the same selections it gives the same outcome
    and the same page and changes no variable; and what it gives depends
    on the table and the selections only. *)
Theorem query_block_no_side_effect {L : Library} (csv_field : cell → string)
    stations years months v :
  var_df (query_block csv_field stations years months v).1.2 = var_df v ∧
  query_block csv_field stations years months
    (query_block csv_field stations years months v).1.2 =
    query_block csv_field stations years months v ∧
  (∀ v0, var_df v0 = var_df v →
     (query_block csv_field stations years months v0).1.1 =
       (query_block csv_field stations years months v).1.1 ∧
     (query_block csv_field stations years months v0).2 =
       (query_block csv_field stations years months v).2).
Proof.
  unfold query_block.
  cbv [mbind Script_bind read_df eval assign_result emit].
  split; [|split].
  - destruct (result (var_df v) stations years months) as [r|e]; cbn; [|done].
    destruct (empty r); [done|].
    cbv [mbind Script_bind read_df eval assign_total_power assign_total_fee
         assign_avg_price assign_csv emit].
    destruct (total_power r); cbn; [|done].
    destruct (total_fee r) as [tf|]; cbn; [|done].
    by destruct (avg_price tf _).
  - destruct (result (var_df v) stations years months) as [r|e] eqn:Hr;
      rerun; [|done].
    destruct (empty r) eqn:He; rerun; [done|].
    cbv [mbind Script_bind read_df eval assign_total_power assign_total_fee
         assign_avg_price assign_csv emit].
    destruct (total_power r) as [tp|] eqn:Htp; rerun; [|done].
    destruct (total_fee r) as [tf|] eqn:Htf; rerun; [|done].
    destruct (avg_price tf tp) as [ap|] eqn:Hap; rerun; done.
  - intros v0 ->.
    destruct (result (var_df v) stations years months) as [r|e]; cbn; [|done].
    destruct (empty r); [done|].
    cbv [mbind Script_bind read_df eval assign_total_power assign_total_fee
         assign_avg_price assign_csv emit].
    destruct (total_power r) as [tp|]; cbn; [|done].
    destruct (total_fee r) as [tf|]; cbn; [|done].
    by destruct (avg_price tf tp).
Qed.

(** ** What the query block puts on the page *)

Section page_facts.
Context {L : Library} (csv_field : cell → string).
Implicit Types (v : Vars) (stations years months : list cell).

(** The block never shows the load-failure widget, and shows the warning
    or the export only as its last widget. *)
Lemma query_block_page v stations years months w :
  w = (query_block csv_field stations years months v).2 →
  w = [] ∨ w = [st_divider; st_warning] ∨
  ∃ res, result (var_df v) stations years months = Ok res ∧
         empty res = false ∧
    (w = [st_divider; st_subheader; st_dataframe res] ∨
     ∃ tp tf ap,
       w = [st_divider; st_subheader; st_dataframe res;
            st_metric "total_power" tp; st_metric "total_fee" tf;
            st_metric "avg_price" ap; st_caption (length (rows res));
            st_download_button (convert_df_to_csv csv_field res)
              "query_result.csv" "text/csv"]).
Proof.
  intros ->. unfold query_block.
  cbv [mbind Script_bind read_df eval assign_result emit].
  destruct (result (var_df v) stations years months) as [r|e]; cbn; [|by left].
  destruct (empty r) eqn:He; [by right; left|]. right; right.
  exists r. split; [done|]. split; [done|].
  cbv [mbind Script_bind read_df eval assign_total_power assign_total_fee
       assign_avg_price assign_csv emit].
  destruct (total_power r) as [tp|]; cbn; [|by left].
  destruct (total_fee r) as [tf|]; cbn; [|by left].
  destruct (avg_price tf tp) as [ap|]; cbn; [|by left].
  right. by exists tp, tf, ap.
Qed.

Lemma query_block_no_error_widget v stations years months e :
  st_error e ∉ (query_block csv_field stations years months v).2.
Proof.
  destruct (query_block_page v stations years months _ eq_refl)
    as [Hw | [Hw | (res & _ & _ & [Hw | (tp & tf & ap & Hw)])]];
    rewrite Hw; not_on_page.
Qed.

Lemma append_empty_r (s : string) : s ++ "" = s.
Proof.
  induction s as [|a s IH]; [done|].
  change (String a (s ++ "") = String a s). by rewrite IH.
Qed.
End page_facts.

(** ** An empty result is a warning, a failed load is an error *)

(** C7 does not hold as stated: a file that cannot be read makes the
    load fail with an error that is not the schema error, and the script
    reports it on the same path; so does a year column that holds an
    infinite value. *)
Lemma load_error_other_than_schema :
  (∀ L : Library,
     load_data (Unreadable FileNotFoundError) = Raise FileNotFoundError ∧
     startup (Unreadable FileNotFoundError) =
       ([st_error FileNotFoundError], None) ∧
     load_data (Table infinite_year_table) = Raise IntCastingNaNError) ∧
  (∀ L : Library,
     ¬ (∀ file e, load_data file = Raise e → ∃ missing, e = ValueError missing)).
Proof.
  split; [intros L; by repeat split|].
  intros L Hall.
  by destruct (Hall (Unreadable FileNotFoundError) FileNotFoundError eq_refl).
Qed.

(** C7, amended: a query that selects no row of the loaded table is not
    an error: the block ends normally, keeps the table and shows the
    warning and nothing else, which a query that selects some row never
    shows; a failed load, whatever its error, is reported by the error
    widget, which the query block never shows, and stops the run.  The
    load fails with the error of [read_csv] when the file cannot be read,
    with the schema error listing the absent required columns when one is
    absent, and with the error of the cast when a year that is kept is
    infinite. *)
Theorem empty_result_not_an_error {L : Library} (csv_field : cell → string)
    file v stations years months :
  load_data file = Ok (var_df v) →
  (∀ row, row ∈ rows (var_df v) →
     ¬ selected (var_df v) stations years months row) →
  (∃ v', query_block csv_field stations years months v =
           (Ok tt, v', [st_divider; st_warning]) ∧
         var_df v' = var_df v ∧
         var_result v' = Some (mkDF (columns (var_df v)) [])) ∧
  (∀ st ys ms res,
     result (var_df v) st ys ms = Ok res → rows res ≠ [] →
     st_warning ∉ (query_block csv_field st ys ms v).2) ∧
  (∀ v0 st ys ms e, st_error e ∉ (query_block csv_field st ys ms v0).2) ∧
  (∀ file' e, load_data file' = Raise e →
     startup file' = ([st_error e], None)) ∧
  (∀ e, load_data (Unreadable e) = Raise e) ∧
  (∀ t, filter (λ col, col ∉ columns t) required_cols ≠ [] →
     load_data (Table t) =
       Raise (ValueError (filter (λ col, col ∉ columns t) required_cols))) ∧
  (∀ t p, (∀ c, c ∈ required_cols → c ∈ columns t) →
     p ∈ kept_rows t → is_inf p.2 = true →
     load_data (Table t) = Raise IntCastingNaNError).
Proof.
  intros Hload Hnone.
  split; [|split; [|split; [|split; [|split; [done|split]]]]].
  - eexists. split.
    + apply query_block_warning.
      * rewrite (result_loaded _ _ _ _ _ Hload).
        by rewrite (filter_none _ _ Hnone).
      * unfold empty. cbn [rows]. by rewrite bool_decide_eq_true_2.
    + done.
  - intros st ys ms res Hres Hrows.
    destruct (query_block_page csv_field v st ys ms _ eq_refl)
      as [Hw | [Hw | (res' & Hres' & He & [Hw | (tp & tf & ap & Hw)])]];
      [rewrite Hw| |rewrite Hw|rewrite Hw].
    + apply not_elem_of_nil.
    + exfalso. revert Hw. unfold query_block.
      cbv [mbind Script_bind read_df eval assign_result emit].
      rewrite Hres. cbn.
      rewrite (empty_loaded _ _ _ _ _ _ Hload Hres).
      rewrite bool_decide_eq_false_2 by done.
      cbv [mbind Script_bind read_df eval assign_total_power assign_total_fee
           assign_avg_price assign_csv emit].
      destruct (total_power res) as [tp|]; cbn; [|done].
      destruct (total_fee res) as [tf|]; cbn; [|done].
      by destruct (avg_price tf tp).
    + not_on_page.
    + not_on_page.
  - intros v0 st ys ms e. apply query_block_no_error_widget.
  - intros file' e Hfail. unfold startup. by rewrite Hfail.
  - intros t Hne. by apply load_data_missing.
  - intros t p Hcols Hp Hinf. rewrite load_data_Table by done.
    rewrite decide_False; [done|]. intros Hfin.
    pose proof (proj1 (Forall_forall _ _) Hfin p Hp) as Hp'. cbn in Hp'.
    congruence.
Qed.

Lemma empty_result_not_an_error_witness :
  load_data (L := decimal_library) (Table sample_table) =
    Ok (var_df (initial_vars sample_loaded)) ∧
  (∀ row, row ∈ rows (var_df (initial_vars sample_loaded)) →
     ¬ selected (var_df (initial_vars sample_loaded))
         [Str "C"] [Int 2023] [Str "3月"] row) ∧
  ∃ v', query_block (L := decimal_library) csv_field_default
          [Str "C"] [Int 2023] [Str "3月"]
          (initial_vars sample_loaded) = (Ok tt, v', [st_divider; st_warning]).
Proof.
  assert (∀ row, row ∈ rows (var_df (initial_vars sample_loaded)) →
            ¬ selected (var_df (initial_vars sample_loaded))
                [Str "C"] [Int 2023] [Str "3月"] row) as Hnone.
  { apply Forall_forall. by apply (bool_decide_unpack _). }
  split; [reflexivity|]. split; [exact Hnone|].
  destruct (empty_result_not_an_error (L := decimal_library) csv_field_default
              (Table sample_table)
              (initial_vars sample_loaded) [Str "C"] [Int 2023] [Str "3月"]
              eq_refl Hnone) as [(v' & Hrun & _) _].
  by exists v'.
Defined.

(** ** The export *)

(** C6 does not hold as stated: a query of the loaded table whose
    result has no row offers no export at all; the page holds the warning
    only. *)
Lemma no_export_for_empty_result :
  (load_data (L := decimal_library) (Table sample_table) = Ok sample_loaded ∧
   result sample_loaded [] [Int 2023] [Str "3月"] = Ok (mkDF required_cols []) ∧
   ∀ L : Library,
     load_data (Table sample_loaded) = Ok sample_loaded ∧
     (query_block csv_field_default [] [Int 2023] [Str "3月"]
        (initial_vars sample_loaded)).2 = [st_divider; st_warning]) ∧
  (∀ L : Library,
     ¬ (∀ (csv_field : cell → string) file v stations years months res,
          load_data file = Ok (var_df v) →
          result (var_df v) stations years months = Ok res →
          st_download_button (convert_df_to_csv csv_field res)
            "query_result.csv" "text/csv"
            ∈ (query_block csv_field stations years months v).2)).
Proof.
  assert (∀ L : Library,
            query_block csv_field_default [] [Int 2023] [Str "3月"]
              (initial_vars sample_loaded) =
            (Ok tt, mkVars sample_loaded (Some (mkDF required_cols [])) None None
                      None None, [st_divider; st_warning])) as Hrun.
  { intros L.
    by apply (query_block_warning csv_field_default (initial_vars sample_loaded)). }
  split.
  { split; [reflexivity|]. split; [reflexivity|].
    intros L. split; [reflexivity|]. by rewrite Hrun. }
  intros L Hall.
  specialize (Hall csv_field_default (Table sample_loaded)
                (initial_vars sample_loaded) [] [Int 2023] [Str "3月"]
                (mkDF required_cols []) eq_refl eq_refl).
  rewrite Hrun in Hall. revert Hall. cbn [snd]. not_on_page.
Qed.

(** C6, amended: for every query result with at least one row (over
    numeric power_kwh and fee_yuan columns) the block offers one export,
    under the file name query_result.csv: the UTF-8 bytes of the CSV text
    made of the header of the input, in the input's column order, followed
    by one line for each row of the result, in order.  For a result with
    no row the block offers no export; [convert_df_to_csv] applied to a
    frame with no row gives the header line alone. *)
Theorem export_of_query_result {L : Library} (csv_field : cell → string)
    file v stations years months res :
  load_data file = Ok (var_df v) →
  result (var_df v) stations years months = Ok res →
  numeric_column res "power_kwh" →
  numeric_column res "fee_yuan" →
  (rows res ≠ [] →
     ∃ v' w, query_block csv_field stations years months v = (Ok tt, v', w) ∧
       var_csv v' = Some (convert_df_to_csv csv_field res) ∧
       ∀ data name mime,
         st_download_button data name mime ∈ w ↔
         data = convert_df_to_csv csv_field res ∧
         name = "query_result.csv" ∧ mime = "text/csv") ∧
  (rows res = [] →
     ∀ data name mime,
       st_download_button data name mime
         ∉ (query_block csv_field stations years months v).2) ∧
  convert_df_to_csv csv_field res =
    encode_utf8
      (csv_header csv_field (var_df v) ++
       String.concat ""
         (csv_row csv_field (var_df v) <$>
          filter (selected (var_df v) stations years months) (rows (var_df v)))) ∧
  (∃ t, file = Table t ∧ csv_header csv_field res = csv_header csv_field t) ∧
  convert_df_to_csv csv_field (mkDF (columns res) []) =
    encode_utf8 (csv_header csv_field res).
Proof.
  intros Hload Hres Hp Hf.
  pose proof (empty_loaded _ _ _ _ _ _ Hload Hres) as Hempty.
  pose proof Hres as Hres'.
  rewrite (result_loaded _ _ _ _ _ Hload) in Hres'. injection Hres' as Hres'.
  assert ("power_kwh" ∈ columns res ∧ "fee_yuan" ∈ columns res) as [Hpc Hfc].
  { rewrite <- Hres'. cbn [columns].
    split; (eapply load_data_columns; [done|]); by apply (bool_decide_unpack _). }
  split; [|split; [|split; [|split]]].
  - intros Hrows. do 2 eexists. split.
    { apply query_block_results; try done.
      - rewrite Hempty. by apply bool_decide_eq_false_2.
      - by apply column_total.
      - by apply column_total.
      - apply avg_price_total. }
    split; [done|]. intros data name mime.
    rewrite !elem_of_cons, elem_of_nil. split.
    + intros Hin.
      repeat (destruct Hin as [Hin|Hin]; [discriminate Hin|]).
      destruct Hin as [[= -> -> ->]|[]]. done.
    + intros (-> & -> & ->). do 7 right. by left.
  - intros Hrows data name mime.
    erewrite query_block_warning; [cbn [snd]; not_on_page|done|].
    rewrite Hempty. by apply bool_decide_eq_true_2.
  - by rewrite <- Hres'.
  - apply load_data_inv in Hload as (t & -> & _ & _ & Ht). exists t.
    split; [done|]. rewrite <- Hres', Ht. done.
  - unfold convert_df_to_csv, to_csv. cbn [rows fmap list_fmap String.concat].
    by rewrite append_empty_r.
Qed.

Lemma export_of_query_result_witness :
  load_data (L := decimal_library) (Table sample_table) =
    Ok (var_df (initial_vars sample_loaded)) ∧
  result (var_df (initial_vars sample_loaded))
    [Str "A"] [Int 2023] [Str "3月"; Str "4月"] = Ok sample_result ∧
  numeric_column sample_result "power_kwh" ∧
  numeric_column sample_result "fee_yuan" ∧
  rows sample_result ≠ [] ∧
  ∃ v' w,
    query_block (L := decimal_library) csv_field_default
      [Str "A"] [Int 2023] [Str "3月"; Str "4月"]
      (initial_vars sample_loaded) = (Ok tt, v', w) ∧
    st_download_button (convert_df_to_csv csv_field_default sample_result)
      "query_result.csv" "text/csv" ∈ w.
Proof.
  assert (numeric_column sample_result "power_kwh") as Hp
    by (apply numeric_column_check; reflexivity).
  assert (numeric_column sample_result "fee_yuan") as Hf
    by (apply numeric_column_check; reflexivity).
  assert (rows sample_result ≠ []) as Hrows by discriminate.
  split; [reflexivity|]. split; [reflexivity|].
  split; [exact Hp|]. split; [exact Hf|]. split; [exact Hrows|].
  destruct (export_of_query_result (L := decimal_library) csv_field_default
              (Table sample_table)
              (initial_vars sample_loaded) [Str "A"] [Int 2023]
              [Str "3月"; Str "4月"] sample_result eq_refl eq_refl Hp Hf)
    as [Hexport _].
  destruct (Hexport Hrows) as (v' & w & Hrun & _ & Hw).
  exists v', w. split; [exact Hrun|]. by apply Hw.
Defined.

(** The export of the sample result, as text. *)
Example export_example :
  to_csv csv_field_default sample_result =
    "station,year,month,power_kwh,fee_yuan,price_yuan_per_kwh" ++ newline ++
    "A,2023,3月,100.0,50.0," ++ newline ++
    "A,2023,4月,200.0,80.0," ++ newline.
Proof. reflexivity. Qed.


(** * Further properties *)

(** ** The loader changes the year column only *)

Section loader_frame.
Implicit Types (t df : DataFrame) (row : list cell) (key : string).

Lemma filter_all {A} (P : A → Prop) `{!∀ x, Decision (P x)} (l : list A) :
  (∀ x, x ∈ l → P x) → filter P l = l.
Proof.
  induction l as [|x l IH]; [done|]. intros Hall.
  rewrite filter_cons_True by (apply Hall; left).
  f_equal. apply IH. intros y Hy. apply Hall. by right.
Qed.

Lemma field_other_column df key key' v row :
  key ≠ key' → NoDup (columns df) →
  field df key' (with_field df key v row) = field df key' row.
Proof.
  unfold field, with_field. intros Hne Hnd.
  destruct (get_loc (columns df) key) as [i|] eqn:Hi; [|done].
  destruct (get_loc (columns df) key') as [j|] eqn:Hj; [|done].
  apply list_lookup_total_insert_ne. intros ->.
  apply get_loc_lookup in Hi, Hj. congruence.
Qed.

Lemma with_field_length df key v row :
  length (with_field df key v row) = length row.
Proof. unfold with_field. case_match; [apply length_insert|done]. Qed.

Lemma with_field_same df key row :
  field df key row ≠ NaN → with_field df key (field df key row) row = row.
Proof.
  unfold field, with_field.
  destruct (get_loc (columns df) key) as [i|]; [|done].
  rewrite list_lookup_total_alt. intros Hc.
  destruct (row !! i) as [c|] eqn:Hi; [|done].
  by apply list_insert_id.
Qed.
End loader_frame.

(** X1: loading a table whose column names are distinct keeps the header,
    and every row it keeps comes from a row of the table whose year is not
    missing once coerced, which it matches in length and in every column
    other than year. *)
Theorem load_data_keeps_other_columns {L : Library} t df :
  NoDup (columns t) →
  load_data (Table t) = Ok df →
  columns df = columns t ∧
  ∀ row', row' ∈ rows df →
    ∃ row y, (row, y) ∈ rows_with_year t ∧ row ∈ rows t ∧ y ≠ NaN ∧
             row' = clean_row t (row, y) ∧
             length row' = length row ∧
             ∀ key, key ≠ "year" → field df key row' = field t key row.
Proof.
  intros Hnd (t' & [= <-] & _ & _ & ->)%load_data_inv. split; [done|].
  cbn [rows]. intros row' ([row y] & -> & Hp)%list_elem_of_fmap.
  destruct (kept_rows_elem t _ Hp) as (Hrow & Hy & _). cbn in Hrow, Hy.
  apply list_elem_of_filter in Hp as [_ Hp].
  exists row, y. do 4 (split; [done|]).
  split; [apply with_field_length|].
  intros key Hkey. by apply (field_other_column t "year" key).
Qed.

Lemma load_data_keeps_other_columns_witness :
  NoDup (columns sample_table) ∧
  load_data (L := decimal_library) (Table sample_table) = Ok sample_loaded ∧
  columns sample_loaded = columns sample_table.
Proof.
  assert (NoDup (columns sample_table)) as Hnd
    by (by apply (bool_decide_unpack _)).
  split; [exact Hnd|]. split; [reflexivity|].
  exact (proj1 (load_data_keeps_other_columns (L := decimal_library)
                  sample_table sample_loaded Hnd eq_refl)).
Defined.

(** X2: a loaded table is a fixed point of the loader: loading it again
    drops no row and changes no cell. *)
Theorem load_data_idempotent {L : Library} file df :
  load_data file = Ok df → load_data (Table df) = Ok df.
Proof.
  intros Hload.
  assert (∀ row, row ∈ rows df →
            ∃ z, field df "year" row = Int z ∧ to_int64 z = z) as Hyears.
  { intros row Hrow. by eapply load_data_year_int64. }
  assert (rows_with_year df = (λ row, (row, field df "year" row)) <$> rows df)
    as Hrw.
  { unfold rows_with_year, coerced_years.
    rewrite to_numeric_coerce_numeric; [apply zip_with_fmap_same|].
    apply Forall_fmap, Forall_forall. intros row Hrow. cbn.
    by destruct (Hyears row Hrow) as (z & -> & _). }
  rewrite load_data_Table by (intros c Hc; by eapply load_data_columns).
  unfold kept_rows. rewrite Hrw, filter_fmap.
  rewrite filter_all; last first.
  { intros row Hrow. cbn. by destruct (Hyears row Hrow) as (z & -> & _). }
  rewrite decide_True; last first.
  { apply Forall_fmap, Forall_forall. intros row Hrow. cbn.
    by destruct (Hyears row Hrow) as (z & -> & _). }
  rewrite <- list_fmap_compose.
  rewrite (fmap_ext_elem _ id (rows df)); last first.
  { intros row Hrow. cbn. unfold clean_row. cbn.
    destruct (Hyears row Hrow) as (z & Hz & Hfit). rewrite Hz. cbn.
    rewrite Hfit, <- Hz. apply with_field_same. by rewrite Hz. }
  rewrite list_fmap_id. by destruct df.
Qed.

Lemma load_data_idempotent_witness :
  load_data (L := decimal_library) (Table sample_table) = Ok sample_loaded ∧
  load_data (L := decimal_library) (Table sample_loaded) = Ok sample_loaded.
Proof.
  split; [reflexivity|].
  apply (load_data_idempotent (L := decimal_library) (Table sample_table)).
  reflexivity.
Defined.

(** ** Queries compose *)

Section filter_composition.
Implicit Types (df : DataFrame) (row : list cell).

Lemma sublist_filter_impl {A} (P Q : A → Prop) `{!∀ x, Decision (P x)}
    `{!∀ x, Decision (Q x)} (l : list A) :
  (∀ x, P x → Q x) → filter P l `sublist_of` filter Q l.
Proof.
  intros Himpl. induction l as [|x l IH]; [done|].
  rewrite !filter_cons. destruct (decide (P x)) as [HP|HP].
  - rewrite decide_True by auto. by apply sublist_skip.
  - destruct (decide (Q x)); [by apply sublist_cons|done].
Qed.
End filter_composition.

(** X3: querying the result of a query gives the rows that pass both
    sets of selections, whichever query is made first; a query repeated on
    its own result changes nothing. *)
Theorem result_of_result {L : Library} file df s1 y1 m1 s2 y2 m2 :
  load_data file = Ok df →
  ∃ r1 r2 r12 r21,
    result df s1 y1 m1 = Ok r1 ∧ result df s2 y2 m2 = Ok r2 ∧
    result r1 s2 y2 m2 = Ok r12 ∧ result r2 s1 y1 m1 = Ok r21 ∧
    r12 = r21 ∧
    rows r12 =
      filter (λ row, selected df s1 y1 m1 row ∧ selected df s2 y2 m2 row)
        (rows df) ∧
    result r1 s1 y1 m1 = Ok r1.
Proof.
  intros Hload.
  assert ("station" ∈ columns df ∧ "year" ∈ columns df ∧ "month" ∈ columns df)
    as (Hs & Hy & Hm).
  { repeat split; (eapply load_data_columns; [done|]);
      by apply (bool_decide_unpack _). }
  do 4 eexists.
  split; [by apply result_present|]. split; [by apply result_present|].
  split; [by apply result_present|]. split; [by apply result_present|].
  cbn [columns rows].
  change (selected (mkDF (columns df) ?r)) with (selected df).
  rewrite !list_filter_filter. split; [|split].
  - f_equal. apply list_filter_iff. tauto.
  - apply list_filter_iff. tauto.
  - rewrite result_present by done. cbn [columns rows].
    change (selected (mkDF (columns df) ?r)) with (selected df).
    rewrite list_filter_filter. f_equal. f_equal. apply list_filter_iff. tauto.
Qed.

Lemma result_of_result_witness :
  load_data (L := decimal_library) (Table sample_table) = Ok sample_loaded ∧
  ∃ r1 r12,
    result sample_loaded [Str "A"] [Int 2023] [Str "3月"; Str "4月"] = Ok r1 ∧
    result r1 [Str "A"; Str "B"] [Int 2023] [Str "4月"] = Ok r12.
Proof.
  split; [reflexivity|].
  destruct (result_of_result (L := decimal_library) (Table sample_table)
              sample_loaded
              [Str "A"] [Int 2023] [Str "3月"; Str "4月"]
              [Str "A"; Str "B"] [Int 2023] [Str "4月"] eq_refl)
    as (r1 & r2 & r12 & r21 & H1 & _ & H12 & _).
  by exists r1, r12.
Defined.

(** X4: widening the selections can only add rows: the result of the
    narrower query is a subsequence of the result of the wider one. *)
Theorem result_monotone {L : Library}
    file df stations years months stations' years' months' :
  load_data file = Ok df →
  stations ⊆ stations' → years ⊆ years' → months ⊆ months' →
  ∃ r r', result df stations years months = Ok r ∧
          result df stations' years' months' = Ok r' ∧
          rows r `sublist_of` rows r'.
Proof.
  intros Hload Hs Hy Hm. do 2 eexists.
  split; [by eapply result_loaded|]. split; [by eapply result_loaded|].
  cbn [rows]. apply sublist_filter_impl.
  intros row (? & ? & ?). repeat split; auto.
Qed.

Lemma result_monotone_witness :
  load_data (L := decimal_library) (Table sample_table) = Ok sample_loaded ∧
  [Str "A"] ⊆ [Str "A"; Str "B"] ∧ [Int 2023] ⊆ [Int 2023] ∧
  [Str "3月"] ⊆ [Str "3月"; Str "4月"] ∧
  ∃ r r', result sample_loaded [Str "A"] [Int 2023] [Str "3月"] = Ok r ∧
          result sample_loaded [Str "A"; Str "B"] [Int 2023] [Str "3月"; Str "4月"]
            = Ok r' ∧
          rows r `sublist_of` rows r'.
Proof.
  assert ([Str "A"] ⊆ [Str "A"; Str "B"]) as Hs
    by (intros x ->%list_elem_of_singleton; left).
  assert ([Int 2023] ⊆ [Int 2023]) as Hy by done.
  assert ([Str "3月"] ⊆ [Str "3月"; Str "4月"]) as Hm
    by (intros x ->%list_elem_of_singleton; left).
  split; [reflexivity|]. split; [exact Hs|]. split; [exact Hy|].
  split; [exact Hm|].
  exact (result_monotone (L := decimal_library) (Table sample_table)
           sample_loaded _ _ _ _ _ _ eq_refl Hs Hy Hm).
Defined.

(** ** No column is missed after a successful load *)

Section column_access.
Context {L : Library}.
Implicit Types (df : DataFrame) (key : string).

Lemma column_sum_raises_present df key e :
  key ∈ columns df →
  (s ← getitem df key; series_sum s) = Raise e → e = TypeError.
Proof.
  intros Hk. rewrite (getitem_present _ _ Hk). cbn [mbind Result_bind].
  apply series_sum_raises.
Qed.
End column_access.

(** X5: after a successful load no later column access fails: no run of
    the query block and no coverage report raises [KeyError].  The check
    of the loader is what rules it out: on a frame without a month column
    the filter raises [KeyError] for month. *)
Theorem no_key_error_after_load {L : Library} (csv_field : cell → string)
    file v stations years months key :
  load_data file = Ok (var_df v) →
  (query_block csv_field stations years months v).1.1 ≠ Raise (KeyError key) ∧
  (∃ cov, coverage (var_df v) = Ok cov) ∧
  (∀ df0, "station" ∈ columns df0 → "year" ∈ columns df0 →
          "month" ∉ columns df0 →
          result df0 stations years months = Raise (KeyError "month")).
Proof.
  intros Hload.
  assert (∀ c, c ∈ required_cols → c ∈ columns (var_df v)) as Hcols.
  { intros c Hc. by eapply load_data_columns. }
  split; [|split].
  - unfold query_block.
    cbv [mbind Script_bind read_df eval assign_result emit].
    rewrite (result_loaded _ _ _ _ _ Hload). cbn.
    destruct (empty _); [done|].
    cbv [mbind Script_bind read_df eval assign_total_power assign_total_fee
         assign_avg_price assign_csv emit].
    destruct (total_power _) as [tp|e] eqn:Htp; cbn.
    2:{ apply column_sum_raises_present in Htp as ->; [done|].
        apply Hcols. by apply (bool_decide_unpack _). }
    destruct (total_fee _) as [tf|e] eqn:Htf; cbn.
    2:{ apply column_sum_raises_present in Htf as ->; [done|].
        apply Hcols. by apply (bool_decide_unpack _). }
    by rewrite avg_price_total.
  - destruct (coverage_cells (var_df v)) as (keys & cov & _ & Hcov & _);
      [| |by exists cov]; apply Hcols; by apply (bool_decide_unpack _).
  - intros df0 Hs Hy Hm. unfold result.
    rewrite (getitem_present _ _ Hs), (getitem_present _ _ Hy).
    cbn [mbind Result_bind]. unfold getitem. by rewrite get_loc_None.
Qed.

Lemma no_key_error_after_load_witness :
  load_data (L := decimal_library) (Table sample_table) =
    Ok (var_df (initial_vars sample_loaded)) ∧
  (query_block (L := decimal_library) csv_field_default
     [Str "A"] [Int 2023] [Str "3月"]
     (initial_vars sample_loaded)).1.1 ≠ Raise (KeyError "month").
Proof.
  split; [reflexivity|].
  exact (proj1 (no_key_error_after_load (L := decimal_library)
                  csv_field_default (Table sample_table)
                  (initial_vars sample_loaded) [Str "A"] [Int 2023] [Str "3月"]
                  "month" eq_refl)).
Defined.

(** ** The shape and the numbers of the coverage report *)

Section coverage_facts.
Implicit Types (df : DataFrame) (row : list cell).

Lemma length_filter_split {A} (P Q : A → Prop) `{!∀ x, Decision (P x)}
    `{!∀ x, Decision (Q x)} (l : list A) :
  (∀ x, P x → Q x → False) →
  length (filter (λ x, P x ∨ Q x) l) =
    (length (filter P l) + length (filter Q l))%nat.
Proof.
  intros Hdisj. induction l as [|x l IH]; [done|].
  rewrite !filter_cons.
  destruct (decide (P x)) as [HP|HP], (decide (Q x)) as [HQ|HQ].
  - by destruct (Hdisj x).
  - rewrite decide_True by auto. cbn. by rewrite IH.
  - rewrite decide_True by auto. cbn. rewrite IH. lia.
  - rewrite decide_False by tauto. exact IH.
Qed.

(** Counting by label, over distinct labels, counts every element whose
    label is among them once. *)
Lemma sum_of_counts {A} (f : A → cell) (ks : list cell) (l : list A) :
  NoDup ks →
  sum_list ((λ k, length (filter (λ x, f x = k) l)) <$> ks) =
    length (filter (λ x, f x ∈ ks) l).
Proof.
  induction 1 as [|k ks Hk Hnd IH].
  - cbn. symmetry. apply length_zero_iff_nil, filter_none.
    intros x _. apply not_elem_of_nil.
  - rewrite fmap_cons. cbn [sum_list sum_list_with]. rewrite IH.
    unfold id.
    rewrite <- (length_filter_split (λ x, f x = k) (λ x, f x ∈ ks))
      by (intros x <- Hin; done).
    f_equal. apply list_filter_iff. intros x. rewrite elem_of_cons. done.
Qed.

End coverage_facts.

(** X6: the coverage report of a loaded table is a full rectangle, one
    line of numbers per station shown and one number per year shown; every
    station shown has a positive number in some year, and every year shown
    has a positive number for some station. *)
Theorem coverage_no_empty_line {L : Library} file df :
  load_data file = Ok df →
  ∃ cov, coverage df = Ok cov ∧
    length (ct_values cov) = length (ct_index cov) ∧
    Forall (λ line, length line = length (ct_columns cov)) (ct_values cov) ∧
    (∀ s, s ∈ ct_index cov →
       ∃ y n, y ∈ ct_columns cov ∧ ct_at cov s y = Some n ∧ (0 < n)%nat) ∧
    (∀ y, y ∈ ct_columns cov →
       ∃ s n, s ∈ ct_index cov ∧ ct_at cov s y = Some n ∧ (0 < n)%nat).
Proof.
  intros Hload.
  assert ("station" ∈ columns df ∧ "year" ∈ columns df) as [Hs Hy].
  { split; (eapply load_data_columns; [done|]); by apply (bool_decide_unpack _). }
  destruct (coverage_cells df Hs Hy)
    as (keys & cov & Hkeys & Hcov & Hidx & Hcol & _ & _ & _ & _ & Hval).
  exists cov. split; [done|].
  assert (∀ s y, s ∈ ct_index cov → y ∈ ct_columns cov →
            ct_at cov s y = Some (length (filter ((s, y) =.) keys))) as Hat.
  { intros s y Hsi Hyi. by apply (ct_at_values cov _ s y Hval). }
  assert (∀ s y, (s, y) ∈ keys → (0 < length (filter ((s, y) =.) keys))%nat)
    as Hpos.
  { intros s y Hin.
    assert ((s, y) ∈ filter ((s, y) =.) keys) as Hin'
      by (by apply list_elem_of_filter).
    destruct (filter _ keys); [by apply elem_of_nil in Hin'|cbn; lia]. }
  split; [by rewrite Hval, length_fmap|]. split; [|split].
  - rewrite Hval. apply Forall_fmap, Forall_forall. intros s _. cbn.
    by rewrite length_fmap.
  - intros s Hsi. destruct (proj1 (Hidx s) Hsi) as [y Hk].
    assert (y ∈ ct_columns cov) as Hyc by (apply Hcol; by exists s).
    exists y, (length (filter ((s, y) =.) keys)). auto.
  - intros y Hyc. destruct (proj1 (Hcol y) Hyc) as [s Hk].
    assert (s ∈ ct_index cov) as Hsi by (apply Hidx; by exists y).
    exists s, (length (filter ((s, y) =.) keys)). auto.
Qed.

Lemma coverage_no_empty_line_witness :
  load_data (L := decimal_library) (Table sample_table) = Ok sample_loaded ∧
  ∃ cov, coverage sample_loaded = Ok cov ∧
    length (ct_values cov) = length (ct_index cov).
Proof.
  split; [reflexivity|].
  destruct (coverage_no_empty_line (L := decimal_library)
              (Table sample_table) sample_loaded eq_refl)
    as (cov & Hcov & Hlen & _).
  by exists cov.
Defined.

(** X7: the numbers of the coverage report of a loaded table add up to
    the number of rows that have a station: each such row is counted
    once, and rows without a station are not counted. *)
Theorem coverage_total {L : Library} file df :
  load_data file = Ok df →
  ∃ cov, coverage df = Ok cov ∧
    sum_list (sum_list <$> ct_values cov) =
      length (filter (λ row, field df "station" row ≠ NaN) (rows df)).
Proof.
  intros Hload.
  assert ("station" ∈ columns df ∧ "year" ∈ columns df) as [Hs Hy].
  { split; (eapply load_data_columns; [done|]); by apply (bool_decide_unpack _). }
  destruct (coverage_cells df Hs Hy)
    as (keys & cov & Hkeys & Hcov & Hidx & Hcol & Hsi & Hsc & _ & _ & Hval).
  exists cov. split; [done|].
  rewrite Hval, <- list_fmap_compose.
  rewrite (list_fmap_ext _ (λ s, length (filter (λ k, k.1 = s) keys))
             (ct_index cov)); last first.
  { intros _ s _. cbn.
    rewrite (list_fmap_ext _
               (λ y, length (filter (λ k, k.2 = y) (filter (λ k, k.1 = s) keys)))
               (ct_columns cov)); last first.
    { intros _ y _. cbn. rewrite list_filter_filter. f_equal.
      apply list_filter_iff. intros [s' y']. cbn. split.
      - by intros [= <- <-].
      - by intros [-> ->]. }
    rewrite sum_of_counts by done.
    f_equal. apply filter_all. intros [s' y'] [_ Hk]%list_elem_of_filter.
    cbn. apply Hcol. by exists s'. }
  rewrite sum_of_counts by done.
  rewrite filter_all; last first.
  { intros [s y] Hk. cbn. apply Hidx. by exists y. }
  rewrite Hkeys, length_fmap. f_equal. apply filter_iff_elem. intros row Hrow.
  split; [tauto|]. intros Hst. split; [done|].
  destruct (load_data_year_rows _ _ row Hload Hrow) as [z Hz]. congruence.
Qed.

Lemma coverage_total_witness :
  load_data (L := decimal_library) (Table sample_table) = Ok sample_loaded ∧
  ∃ cov, coverage sample_loaded = Ok cov ∧
    sum_list (sum_list <$> ct_values cov) = 3%nat.
Proof.
  split; [reflexivity|].
  destruct (coverage_total (L := decimal_library) (Table sample_table)
              sample_loaded eq_refl)
    as (cov & Hcov & Hsum).
  exists cov. split; [done|]. by rewrite Hsum.
Defined.




(** ** Sorting the options of a selector *)

#[global] Instance year_before_dec : RelDecision year_before.
Proof. intros [] []; cbn; apply _. Defined.

#[global] Instance text_before_dec : RelDecision text_before.
Proof. intros [] []; cbn; apply _. Defined.

Section sorting_facts.
Context (dom : cell → Prop) (lt : cell → cell → Prop) `{!RelDecision lt}.
Hypothesis py_lt_dom :
  ∀ a b, dom a → dom b → py_lt a b = Ok (bool_decide (lt a b)).
Hypothesis lt_trans : ∀ a b c, lt a b → lt b c → lt a c.
Hypothesis lt_irrefl : ∀ a, ¬ lt a a.
Hypothesis lt_total : ∀ a b, dom a → dom b → lt a b ∨ a = b ∨ lt b a.

Lemma insort_dom x acc :
  dom x → Forall dom acc → StronglySorted (λ a b, ¬ lt b a) acc →
  ∃ acc', insort x acc = Ok acc' ∧ acc' ≡ₚ x :: acc ∧
          StronglySorted (λ a b, ¬ lt b a) acc'.
Proof.
  intros Hx Hdom Hsorted. induction Hsorted as [|y l Hl IH Hall].
  - exists [x]. repeat split; [done|]. repeat constructor.
  - apply Forall_cons in Hdom as [Hy Hdom]. cbn [insort].
    rewrite py_lt_dom by done. cbn [mbind Result_bind].
    case_bool_decide as Hlt.
    + eexists. split; [done|]. split; [done|].
      constructor; [by constructor|]. constructor.
      * intros Hyx. by apply (lt_irrefl x), (lt_trans x y x).
      * eapply Forall_impl; [exact Hall|]. intros z Hz Hzx.
        apply Hz. by apply (lt_trans z x y).
    + destruct (IH Hdom) as (l' & -> & Hperm & Hl'). cbn [mbind Result_bind].
      eexists. split; [done|]. split.
      * rewrite Hperm. apply perm_swap.
      * constructor; [done|]. apply Forall_forall. intros z Hz.
        rewrite Hperm in Hz. apply elem_of_cons in Hz as [->|Hz]; [done|].
        by apply (proj1 (Forall_forall _ _) Hall).
Qed.

Lemma sort_into_dom acc l :
  Forall dom acc → Forall dom l → StronglySorted (λ a b, ¬ lt b a) acc →
  ∃ r, sort_into acc l = Ok r ∧ r ≡ₚ (acc ++ l)%list ∧
       StronglySorted (λ a b, ¬ lt b a) r.
Proof.
  revert acc. induction l as [|x l IH]; intros acc Hacc Hl Hsorted.
  - exists acc. by rewrite app_nil_r.
  - apply Forall_cons in Hl as [Hx Hl]. cbn [sort_into].
    destruct (insort_dom x acc Hx Hacc Hsorted) as (acc' & -> & Hperm & Hs').
    cbn [mbind Result_bind].
    destruct (IH acc') as (r & Hr & Hpr & Hsr); [by rewrite Hperm; constructor|done..|].
    exists r. split; [done|]. split; [|done].
    rewrite Hpr, Hperm. by rewrite <- Permutation_middle.
Qed.

Lemma strict_of_distinct (r : list cell) :
  Forall dom r → NoDup r → StronglySorted (λ a b, ¬ lt b a) r →
  StronglySorted lt r.
Proof.
  intros Hdom Hnd Hsorted.
  induction Hsorted as [|x l Hl IH Hall]; [constructor|].
  apply Forall_cons in Hdom as [Hx Hdom]. apply NoDup_cons in Hnd as [Hnin Hnd].
  constructor; [by apply IH|]. apply Forall_forall. intros y Hy.
  destruct (lt_total x y) as [?|[->|Hyx]]; [done| |done|done|].
  - by apply (proj1 (Forall_forall _ _) Hdom).
  - by destruct (proj1 (Forall_forall _ _) Hall y Hy).
Qed.

(** Sorting distinct values that [<] orders: no error, the same values,
    in strictly increasing order. *)
Lemma sorted_ascending (l : list cell) :
  Forall dom l → NoDup l →
  ∃ r, sorted l false = Ok r ∧ r ≡ₚ l ∧ StronglySorted lt r.
Proof.
  intros Hdom Hnd. unfold sorted.
  destruct (sort_into_dom [] l) as (r & Hr & Hperm & Hsorted);
    [constructor|done|constructor|].
  exists r. split; [done|]. split; [done|].
  apply strict_of_distinct; [by rewrite Hperm|by rewrite Hperm|done].
Qed.

Lemma StronglySorted_reverse (R : cell → cell → Prop) (l : list cell) :
  StronglySorted R l → StronglySorted (flip R) (reverse l).
Proof.
  induction 1 as [|x l Hl IH Hall]; [constructor|].
  rewrite reverse_cons. apply StronglySorted_app_2; [|done|repeat constructor].
  intros a b Ha ->%list_elem_of_singleton. rewrite elem_of_reverse in Ha.
  unfold flip. by apply (proj1 (Forall_forall _ _) Hall).
Qed.

(** The same with [reverse=True]: strictly decreasing order. *)
Lemma sorted_descending (l : list cell) :
  Forall dom l → NoDup l →
  ∃ r, sorted l true = Ok r ∧ r ≡ₚ l ∧ StronglySorted (flip lt) r.
Proof.
  intros Hdom Hnd. unfold sorted.
  destruct (sort_into_dom [] (reverse l)) as (r & Hr & Hperm & Hsorted);
    [constructor|by rewrite reverse_Permutation|constructor|].
  rewrite Hr. cbn [mbind Result_bind]. exists (reverse r).
  split; [done|]. cbn [app] in Hperm. rewrite reverse_Permutation in Hperm.
  split; [by rewrite reverse_Permutation|].
  apply StronglySorted_reverse.
  apply strict_of_distinct; [by rewrite Hperm|by rewrite Hperm|done].
Qed.
End sorting_facts.

Section unique_facts.
Implicit Types (s : Series).

Lemma Qc_of_Z_lt (x y : Z) : (Qc_of_Z x < Qc_of_Z y)%Qc ↔ (x < y)%Z.
Proof.
  unfold Qc_of_Z, Qclt. cbn [this Q2Qc]. rewrite !Qred_correct.
  by rewrite <- Zlt_Qlt.
Qed.

Lemma Qc_of_Z_inj (x y : Z) : Qc_of_Z x = Qc_of_Z y ↔ x = y.
Proof.
  split; [|by intros ->].
  intros Heq. assert (Qc_of_Z x == Qc_of_Z y)%Q as Hq by (by rewrite Heq).
  unfold Qc_of_Z in Hq. cbn [this Q2Qc] in Hq. rewrite !Qred_correct in Hq.
  by apply inject_Z_injective.
Qed.

Lemma py_lt_years a b :
  is_int a → is_int b → py_lt a b = Ok (bool_decide (year_before a b)).
Proof.
  intros [x ->] [y ->]. cbn. f_equal. apply bool_decide_ext, Qc_of_Z_lt.
Qed.

Lemma py_lt_texts a b :
  is_text a → is_text b → py_lt a b = Ok (bool_decide (text_before a b)).
Proof. by intros [x ->] [y ->]. Qed.

Lemma year_before_trans a b c : year_before a b → year_before b c → year_before a c.
Proof. destruct a, b, c; cbn; try done. lia. Qed.

Lemma year_before_irrefl a : ¬ year_before a a.
Proof. intros H. destruct a; cbn in H; try done. lia. Qed.

Lemma year_before_total a b :
  is_int a → is_int b → year_before a b ∨ a = b ∨ year_before b a.
Proof.
  intros [x ->] [y ->]. cbn.
  destruct (Z.lt_total x y) as [?|[->|?]]; auto.
Qed.

Lemma text_before_trans a b c : text_before a b → text_before b c → text_before a c.
Proof. destruct a, b, c; cbn; try done. apply string_compare_trans. Qed.

Lemma text_before_irrefl a : ¬ text_before a a.
Proof.
  intros H. destruct a as [|s| | |]; cbn in H; try done.
  pose proof (String.compare_antisym s s) as Ha. rewrite H in Ha. done.
Qed.

Lemma text_before_total a b :
  is_text a → is_text b → text_before a b ∨ a = b ∨ text_before b a.
Proof.
  intros [x ->] [y ->]. cbn.
  destruct (String.compare x y) eqn:E.
  - right; left. by rewrite (String.compare_eq_iff _ _ E).
  - by left.
  - right; right. rewrite String.compare_antisym, E. done.
Qed.
End unique_facts.

(** ** The year selector *)

Section year_selector_facts.
Context {L : Library}.
Implicit Types (df : DataFrame) (row : list cell).

Lemma valid_years_loaded file df :
  load_data file = Ok df →
  ∃ ys, valid_years df = Ok ys ∧ NoDup ys ∧ Forall is_int ys ∧
    StronglySorted (flip year_before) ys ∧
    ∀ y, y ∈ ys ↔ ∃ row, row ∈ rows df ∧ field df "year" row = y.
Proof.
  intros Hload.
  assert ("year" ∈ columns df) as Hy.
  { eapply load_data_columns; [done|]. by apply (bool_decide_unpack _). }
  unfold valid_years. rewrite (getitem_present _ _ Hy). cbn [mbind Result_bind].
  set (col := field df "year" <$> rows df).
  assert (Forall is_int (unique col)) as Hint.
  { apply Forall_forall. intros y Hin. rewrite elem_of_unique in Hin.
    apply list_elem_of_fmap in Hin as (row & -> & Hrow).
    by eapply load_data_year_rows. }
  destruct (sorted_descending is_int year_before py_lt_years year_before_trans
              year_before_irrefl year_before_total (unique col) Hint
              (NoDup_unique col)) as (ys & Hys & Hperm & Hsorted).
  exists ys. split; [done|].
  split; [rewrite Hperm; apply NoDup_unique|].
  split; [by rewrite Hperm|]. split; [done|].
  intros y. rewrite Hperm, elem_of_unique. unfold col.
  rewrite list_elem_of_fmap. split.
  - intros (row & -> & Hrow). by exists row.
  - intros (row & Hrow & <-). by exists row.
Qed.

Lemma existsb_py_eq_year now (ys : list cell) :
  Forall is_int ys →
  existsb (py_eq (Int now)) ys = true ↔ Int now ∈ ys.
Proof.
  intros Hint. rewrite existsb_exists. split.
  - intros (y & Hin%list_elem_of_In & Heq).
    destruct (proj1 (Forall_forall _ _) Hint y Hin) as [z ->].
    cbn in Heq. apply bool_decide_eq_true, Qc_of_Z_inj in Heq. by subst.
  - intros Hin. exists (Int now). split; [by apply list_elem_of_In|].
    cbn. by apply bool_decide_eq_true.
Qed.
End year_selector_facts.

(** X9: the options of the year selector of a loaded table are the years
    found in its rows, each once, the latest first. *)
Theorem valid_years_spec {L : Library} file df :
  load_data file = Ok df →
  ∃ ys, valid_years df = Ok ys ∧ NoDup ys ∧
    StronglySorted (flip year_before) ys ∧
    ∀ y, y ∈ ys ↔ ∃ row, row ∈ rows df ∧ field df "year" row = y.
Proof.
  intros Hload.
  destruct (valid_years_loaded file df Hload) as (ys & ? & ? & _ & ? & ?).
  by exists ys.
Qed.

Lemma valid_years_spec_witness :
  load_data (L := decimal_library) (Table sample_table) = Ok sample_loaded ∧
  ∃ ys, valid_years sample_loaded = Ok ys ∧ ys = [Int 2023; Int 2022].
Proof.
  split; [reflexivity|].
  destruct (valid_years_spec (L := decimal_library) (Table sample_table)
              sample_loaded eq_refl)
    as (ys & Hys & _).
  exists ys. split; [done|]. by injection Hys as <-.
Defined.

(** X10: on a loaded table with at least one row the year selector gets a
    default that is one of its options: the current year when some row
    has it, and otherwise the latest year of the table. *)
Theorem default_year_spec {L : Library} file df now :
  load_data file = Ok df →
  rows df ≠ [] →
  ∃ ys y, year_selector now df = Done (ys, y) ∧ y ∈ ys ∧
    ((∃ row, row ∈ rows df ∧ field df "year" row = Int now) → y = Int now) ∧
    (¬ (∃ row, row ∈ rows df ∧ field df "year" row = Int now) →
       ∀ y', y' ∈ ys → y' = y ∨ year_before y' y).
Proof.
  intros Hload Hrows.
  destruct (valid_years_loaded file df Hload)
    as (ys & Hys & Hnd & Hint & Hsorted & Hmem).
  unfold year_selector. rewrite Hys. cbn [attempt mbind Attempt_bind].
  unfold default_year.
  destruct (existsb (py_eq (Int now)) ys) eqn:Hex.
  - apply existsb_py_eq_year in Hex; [|done].
    exists ys, (Int now). split; [done|]. split; [done|]. split; [done|].
    intros Hno. destruct Hno. by apply Hmem.
  - assert (Int now ∉ ys) as Hnot.
    { intros Hin%existsb_py_eq_year; [|done]. congruence. }
    destruct ys as [|y ys].
    { destruct (rows df) as [|row l] eqn:Hr; [done|].
      assert (field df "year" row ∈ @nil cell) as Hin
        by (apply Hmem; exists row; split; [left|done]).
      by apply elem_of_nil in Hin. }
    exists (y :: ys), y. cbn [item0 mbind Attempt_bind].
    split; [done|]. split; [by left|]. split.
    + intros Hin%Hmem. done.
    + intros _ y' [->|Hin]%elem_of_cons; [by left|right].
      apply StronglySorted_cons in Hsorted as [Hall _].
      by apply (proj1 (Forall_forall _ _) Hall).
Qed.

Lemma default_year_spec_witness :
  load_data (L := decimal_library) (Table sample_table) = Ok sample_loaded ∧
  rows sample_loaded ≠ [] ∧
  ∃ ys y, year_selector 2026 sample_loaded = Done (ys, y) ∧ y = Int 2023.
Proof.
  assert (rows sample_loaded ≠ []) as Hrows by discriminate.
  split; [reflexivity|]. split; [exact Hrows|].
  destruct (default_year_spec (L := decimal_library) (Table sample_table)
              sample_loaded 2026 eq_refl Hrows) as (ys & y & Hsel & _).
  exists ys, y. split; [done|]. by injection Hsel as _ <-.
Defined.

(** X11: a table that has the six columns but no row whose year is a
    number once coerced (a file with its header only, or with malformed
    years only) loads, with no row left, and then stops the run at the
    default of the year selector with an [IndexError], whatever the
    current year. *)
Theorem year_selector_empty_table {L : Library} t now :
  (∀ c, c ∈ required_cols → c ∈ columns t) →
  Forall (λ y, y = NaN) (coerced_years t) →
  ∃ df, load_data (Table t) = Ok df ∧ rows df = [] ∧
        startup (Table t) = ([], Some (initial_vars df)) ∧
        year_selector now df = Crashed IndexError.
Proof.
  intros Hcols Hnone.
  assert (kept_rows t = []) as Hk.
  { apply filter_none. intros [row y] Hin. cbn.
    assert (y ∈ coerced_years t) as Hy.
    { rewrite <- rows_with_year_snd. apply list_elem_of_fmap.
      by exists (row, y). }
    intros Hne. apply Hne. by apply (proj1 (Forall_forall _ _) Hnone). }
  assert (load_data (Table t) = Ok (mkDF (columns t) [])) as Hload.
  { rewrite load_data_Table by done. by rewrite Hk. }
  eexists. split; [exact Hload|]. split; [done|]. split.
  { unfold startup. by rewrite Hload. }
  assert ("year" ∈ columns t) as Hy.
  { apply Hcols. by apply (bool_decide_unpack _). }
  unfold year_selector, valid_years.
  rewrite getitem_present by done. done.
Qed.

Lemma year_selector_empty_table_witness :
  (∀ c, c ∈ required_cols → c ∈ columns malformed_table) ∧
  Forall (λ y, y = NaN) (coerced_years (L := decimal_library) malformed_table) ∧
  ∃ df, load_data (L := decimal_library) (Table malformed_table) = Ok df ∧
        year_selector 2026 df = Crashed IndexError.
Proof.
  assert (∀ c, c ∈ required_cols → c ∈ columns malformed_table) as Hcols by done.
  assert (Forall (λ y, y = NaN)
            (coerced_years (L := decimal_library) malformed_table)) as Hnone.
  { by apply (bool_decide_unpack _). }
  split; [exact Hcols|]. split; [exact Hnone|].
  destruct (year_selector_empty_table (L := decimal_library) malformed_table
              2026 Hcols Hnone)
    as (df & Hload & _ & _ & Hcrash).
  by exists df.
Defined.

(** ** The station selector *)

(** X12: on a loaded table whose stations are texts, the options of the
    station selector are the stations found in the rows, each once, in
    increasing order by code point, a missing station left out; the
    default is the first option, and when no row has a station the run
    stops there with an [IndexError]. *)
Theorem station_options_spec {L : Library} file df :
  load_data file = Ok df →
  (∀ row, row ∈ rows df →
     field df "station" row = NaN ∨ is_text (field df "station" row)) →
  ∃ options, station_options df = Ok options ∧ NoDup options ∧
    StronglySorted text_before options ∧
    (∀ s, s ∈ options ↔
       s ≠ NaN ∧ ∃ row, row ∈ rows df ∧ field df "station" row = s) ∧
    default_stations df =
      match options with
      | [] => Crashed IndexError
      | first :: _ => Done [first]
      end ∧
    ((∀ row, row ∈ rows df → field df "station" row = NaN) →
     default_stations df = Crashed IndexError).
Proof.
  intros Hload Htext.
  assert ("station" ∈ columns df) as Hs.
  { eapply load_data_columns; [done|]. by apply (bool_decide_unpack _). }
  assert (station_options df =
          sorted (unique (series_dropna (field df "station" <$> rows df))) false)
    as Hopt.
  { unfold station_options. by rewrite (getitem_present _ _ Hs). }
  set (col := series_dropna (field df "station" <$> rows df)) in *.
  assert (∀ s, s ∈ col ↔
            s ≠ NaN ∧ ∃ row, row ∈ rows df ∧ field df "station" row = s) as Hcol.
  { intros s. unfold col, series_dropna.
    rewrite list_elem_of_filter, list_elem_of_fmap. split.
    - intros [Hna (row & -> & Hrow)]. split; [|by exists row].
      intros Hnan. by rewrite Hnan in Hna.
    - intros [Hna (row & Hrow & <-)]. split; [|by exists row].
      by destruct (field df "station" row). }
  assert (Forall is_text (unique col)) as Hdom.
  { apply Forall_forall. intros s Hin. rewrite elem_of_unique, Hcol in Hin.
    destruct Hin as [Hna (row & Hrow & <-)]. by destruct (Htext row Hrow). }
  destruct (sorted_ascending is_text text_before py_lt_texts text_before_trans
              text_before_irrefl text_before_total (unique col) Hdom
              (NoDup_unique col)) as (options & Hsorted & Hperm & Hstrict).
  rewrite <- Hopt in Hsorted.
  assert (∀ s, s ∈ options ↔
            s ≠ NaN ∧ ∃ row, row ∈ rows df ∧ field df "station" row = s) as Hmem.
  { intros s. by rewrite Hperm, elem_of_unique. }
  assert (default_stations df =
          match options with
          | [] => Crashed IndexError
          | first :: _ => Done [first]
          end) as Hdefault.
  { unfold default_stations. rewrite Hsorted. by destruct options. }
  exists options. split; [done|].
  split; [rewrite Hperm; apply NoDup_unique|].
  split; [done|]. split; [done|]. split; [done|].
  intros Hnone. rewrite Hdefault. destruct options as [|s l]; [done|].
  destruct (proj1 (Hmem s)) as [Hna (row & Hrow & Hst)]; [by left|].
  rewrite Hnone in Hst by done. congruence.
Qed.

Lemma station_options_spec_witness :
  load_data (L := decimal_library) (Table sample_table) = Ok sample_loaded ∧
  (∀ row, row ∈ rows sample_loaded →
     field sample_loaded "station" row = NaN ∨
     is_text (field sample_loaded "station" row)) ∧
  ∃ options, station_options sample_loaded = Ok options ∧
    default_stations sample_loaded = Done [Str "A"].
Proof.
  assert (∀ row, row ∈ rows sample_loaded →
            field sample_loaded "station" row = NaN ∨
            is_text (field sample_loaded "station" row)) as Htext.
  { intros row Hrow. right.
    repeat (apply elem_of_cons in Hrow as [->|Hrow]; [by eexists|]).
    by apply elem_of_nil in Hrow. }
  split; [reflexivity|]. split; [exact Htext|].
  destruct (station_options_spec (L := decimal_library) (Table sample_table)
              sample_loaded eq_refl Htext)
    as (options & Hopt & _).
  exists options. split; [done|]. reflexivity.
Defined.

(** ** Rows kept and rows dropped *)



(** ** The coverage report bounds the queries *)

(** X15: on a loaded table, a query for one station and one year, with
    any months, returns at most as many rows as the coverage report shows
    for that station and year; when it returns some row, the report has
    that station and that year, with a positive number. *)
Theorem coverage_bounds_query {L : Library} file df s y months :
  load_data file = Ok df →
  s ≠ NaN →
  ∃ cov res, coverage df = Ok cov ∧ result df [s] [y] months = Ok res ∧
    (length (rows res) ≤ group_count df s y)%nat ∧
    (rows res ≠ [] →
       s ∈ ct_index cov ∧ y ∈ ct_columns cov ∧
       ct_at cov s y = Some (group_count df s y) ∧
       (0 < group_count df s y)%nat).
Proof.
  intros Hload Hs.
  assert ("station" ∈ columns df ∧ "year" ∈ columns df) as [Hsc Hyc].
  { split; (eapply load_data_columns; [done|]); by apply (bool_decide_unpack _). }
  destruct (coverage_cells df Hsc Hyc)
    as (keys & cov & Hkeys & Hcov & Hidx & Hcol & _ & _ & _ & _ & Hval).
  exists cov. eexists. split; [done|].
  split; [by eapply result_loaded|]. cbn [rows].
  assert (filter (selected df [s] [y] months) (rows df) `sublist_of`
          filter (λ row, field df "station" row = s ∧ field df "year" row = y)
            (rows df)) as Hsub.
  { apply sublist_filter_impl.
    intros row (Hst%list_elem_of_singleton & Hyr%list_elem_of_singleton & _).
    done. }
  assert (length (filter (selected df [s] [y] months) (rows df))
          ≤ group_count df s y)%nat as Hle
    by (by apply sublist_length).
  split; [done|]. intros Hne.
  destruct (filter (selected df [s] [y] months) (rows df)) as [|row l] eqn:Hf;
    [done|].
  assert (row ∈ filter (selected df [s] [y] months) (rows df)) as Hin
    by (rewrite Hf; left).
  apply list_elem_of_filter in Hin
    as [(Hst%list_elem_of_singleton & Hyr%list_elem_of_singleton & _) Hrow].
  assert (y ≠ NaN) as Hy.
  { destruct (load_data_year_rows _ _ row Hload Hrow) as [z Hz]. congruence. }
  assert ((s, y) ∈ keys) as Hk.
  { rewrite Hkeys. apply list_elem_of_fmap. exists row.
    split; [by rewrite Hst, Hyr|]. apply list_elem_of_filter.
    split; [|done]. by rewrite Hst, Hyr. }
  assert (s ∈ ct_index cov) as Hsi by (apply Hidx; by exists y).
  assert (y ∈ ct_columns cov) as Hyi by (apply Hcol; by exists s).
  split; [done|]. split; [done|]. split.
  - rewrite (ct_at_values cov _ s y Hval Hsi Hyi).
    f_equal. rewrite Hkeys. by apply group_size_count.
  - cbn [length] in Hle. lia.
Qed.

Lemma coverage_bounds_query_witness :
  load_data (L := decimal_library) (Table sample_table) = Ok sample_loaded ∧
  Str "A" ≠ NaN ∧
  ∃ cov res, coverage sample_loaded = Ok cov ∧
    result sample_loaded [Str "A"] [Int 2023] [Str "3月"] = Ok res ∧
    (length (rows res) ≤ group_count sample_loaded (Str "A") (Int 2023))%nat.
Proof.
  assert (Str "A" ≠ NaN) as Hs by discriminate.
  split; [reflexivity|]. split; [exact Hs|].
  destruct (coverage_bounds_query (L := decimal_library) (Table sample_table)
              sample_loaded
              (Str "A") (Int 2023) [Str "3月"] eq_refl Hs)
    as (cov & res & Hcov & Hres & Hle & _).
  by exists cov, res.
Defined.
